(** * Actor-Critic (maro/rl/algorithms/ac.py): embedding and properties

    The development follows the Python module top to bottom:
    the configuration class, the tensor and array operations the
    algorithm calls, [choose_action], the return estimate and [train].

    Conventions.
    - Scalars (tensor and array entries) are an abstract type [F] with the
      operations of class [Scalar]; no law is assumed about them unless a
      theorem states it as a hypothesis.
    - Python exceptions are values of [exn]; a call that can raise returns
      a [result].
    - The mutable objects (the core model, NumPy's global random state)
      live in a [world] that is threaded through every method, together
      with a trace of the calls made on the injected collaborators. *)

From Stdlib Require Import ZArith List Bool Lia Ring InitialRing.
From Stdlib Require Import QArith Qabs Qcanon.
From Stdlib Require Ascii String.
Import ListNotations.

Set Implicit Arguments.
Local Open Scope Z_scope.

(** ** Exceptions and results *)

(** The exception classes that occur.  [ValueError] and [TypeError] come
    from NumPy, [RuntimeError] from the tensor library, [AttributeError]
    from reading an attribute an object does not have.  The last two are
    the classes the specification names; nothing in ac.py defines or
    raises them. *)
Inductive exn : Type :=
| ValueError
| TypeError
| RuntimeError
| AttributeError
| ConfigurationError
| ShapeMismatchError.

Inductive result (A : Type) : Type :=
| Ok (a : A)
| Raise (e : exn).
Arguments Ok {A} a.
Arguments Raise {A} e.

Definition rbind {A B} (r : result A) (f : A -> result B) : result B :=
  match r with Ok a => f a | Raise e => Raise e end.

(** ** Scalars *)

Class Scalar (F : Type) : Type := {
  fzero : F;
  fone : F;
  fadd : F -> F -> F;
  fsub : F -> F -> F;
  fmul : F -> F -> F;
  fdiv : F -> F -> F;
  fopp : F -> F;
  fabs : F -> F;
  fltb : F -> F -> bool;      (* x < y *)
  fof_nat : nat -> F          (* an element count as a scalar *)
}.

Declare Scope F_scope.
Delimit Scope F_scope with F.
Notation "x + y" := (fadd x y) : F_scope.
Notation "x - y" := (fsub x y) : F_scope.
Notation "x * y" := (fmul x y) : F_scope.
Notation "x / y" := (fdiv x y) : F_scope.
Notation "- x" := (fopp x) : F_scope.

(** [torch.log] on one entry. *)
Class Logarithm (F : Type) : Type := {
  flog : F -> F
}.

(** Integers as scalars, used to run the definitions on concrete inputs.
    The logarithm is the integer base-2 logarithm. *)
#[export] Instance ZScalar : Scalar Z := {|
  fzero := 0; fone := 1;
  fadd := Z.add; fsub := Z.sub; fmul := Z.mul; fdiv := Z.div; fopp := Z.opp;
  fabs := Z.abs; fltb := Z.ltb; fof_nat := Z.of_nat
|}.

#[export] Instance ZLogarithm : Logarithm Z := {| flog := Z.log2 |}.

(** Rationals in lowest terms as scalars, for decay factors such as 9/10. *)
#[export] Instance QcScalar : Scalar Qc := {|
  fzero := 0%Qc; fone := 1%Qc;
  fadd := Qcplus; fsub := Qcminus; fmul := Qcmult; fdiv := Qcdiv; fopp := Qcopp;
  fabs := fun x => Q2Qc (Qabs x);
  fltb := fun x y => match (x ?= y)%Qc with Lt => true | _ => false end;
  fof_nat := fun n => Q2Qc (inject_Z (Z.of_nat n))
|}.

Section Numeric.
Context {F : Type} {SF : Scalar F}.

Fixpoint fpow (x : F) (n : nat) : F :=
  match n with
  | O => fone
  | S n' => (x * fpow x n')%F
  end.

Definition fsum (l : list F) : F := fold_right fadd fzero l.

(** ** Tensors of rank 0 and 1

    [train] only handles tensors of rank 0 and rank 1 once the model
    outputs are squeezed. *)
Inductive tensor : Type :=
| T0 (x : F)
| T1 (xs : list F).

Definition to_list (t : tensor) : list F :=
  match t with T0 x => [x] | T1 xs => xs end.

Definition numel (t : tensor) : nat := length (to_list t).

(** [.squeeze()] on a column of shape (n, 1): every dimension of size 1
    is removed, so one row gives a rank-0 tensor. *)
Definition squeeze_col (col : list F) : tensor :=
  match col with
  | [x] => T0 x
  | _ => T1 col
  end.

Fixpoint zip_with (op : F -> F -> F) (l1 l2 : list F) : list F :=
  match l1, l2 with
  | x :: l1', y :: l2' => op x y :: zip_with op l1' l2'
  | _, _ => []
  end.

(** Elementwise binary operation with the tensor library's broadcasting:
    equal shapes combine entry by entry, a dimension of size 1 (or a
    rank-0 operand) is stretched, any other pair of sizes is a
    [RuntimeError]. *)
Definition broadcast (op : F -> F -> F) (a b : tensor) : result tensor :=
  match a, b with
  | T0 x, T0 y => Ok (T0 (op x y))
  | T0 x, T1 ys => Ok (T1 (map (fun y => op x y) ys))
  | T1 xs, T0 y => Ok (T1 (map (fun x => op x y) xs))
  | T1 xs, T1 ys =>
      if Nat.eqb (length xs) (length ys) then Ok (T1 (zip_with op xs ys))
      else match xs, ys with
           | [x], _ => Ok (T1 (map (fun y => op x y) ys))
           | _, [y] => Ok (T1 (map (fun x => op x y) xs))
           | _, _ => Raise RuntimeError
           end
  end.

Definition tsub : tensor -> tensor -> result tensor := broadcast fsub.
Definition tmul : tensor -> tensor -> result tensor := broadcast fmul.

Definition tmap (f : F -> F) (t : tensor) : tensor :=
  match t with T0 x => T0 (f x) | T1 xs => T1 (map f xs) end.

(** [.mean()]: the sum of the entries over their number. *)
Definition tmean (t : tensor) : F := (fsum (to_list t) / fof_nat (numel t))%F.

(** [input.gather(1, index.unsqueeze(1))] for a rank-2 [input] given by
    its rows: entry [i] of the result (a column) is [input[i][index[i]]].
    The index may not have more rows than the input and every index must
    lie in the row. *)
Fixpoint gather1 (rows : list (list F)) (index : list Z) {struct index}
  : result (list F) :=
  match index with
  | [] => Ok []
  | i :: index' =>
      match rows with
      | [] => Raise RuntimeError
      | row :: rows' =>
          if (0 <=? i) && (i <? Z.of_nat (length row)) then
            rbind (gather1 rows' index')
                  (fun l => Ok (nth (Z.to_nat i) row fzero :: l))
          else Raise RuntimeError
      end
  end.

End Numeric.
Arguments tensor F : clear implicits.

(** ** NumPy: arrays handed to [np.random.choice] *)

Section NumPy.
Context {F : Type} {SF : Scalar F}.

(** The squeezed actor output as NumPy sees it: rank 0, 1 or 2. *)
Inductive ndarray : Type :=
| A0 (x : F)
| A1 (xs : list F)
| A2 (rows : list (list F)).

(** [.squeeze()] on the actor output of shape (n, c), given by its rows.
    One row leaves the row itself (rank 0 when it has one entry); rows
    of one entry each leave a vector; anything else stays rank 2. *)
Definition squeeze2 (rows : list (list F)) : ndarray :=
  match rows with
  | [[x]] => A0 x
  | [row] => A1 row
  | _ => if forallb (fun r => Nat.eqb (length r) 1) rows
         then A1 (concat rows) else A2 rows
  end.

Definition entries (p : ndarray) : list F :=
  match p with A0 x => [x] | A1 xs => xs | A2 rows => concat rows end.

(** The source of randomness: NumPy's global [RandomState], of which only
    [random_sample] (one uniform draw) is used. *)
Class RandomState (G : Type) : Type := {
  random_sample : G -> F * G
}.

Fixpoint cumsum_from (acc : F) (l : list F) : list F :=
  match l with
  | [] => []
  | x :: l' => (acc + x)%F :: cumsum_from (acc + x)%F l'
  end.

Definition cumsum (l : list F) : list F :=
  match l with
  | [] => []
  | x :: l' => x :: cumsum_from x l'
  end.

(** [cdf.searchsorted(u, side='right')] on an ascending [cdf]: the number
    of leading entries that are not above [u]. *)
Fixpoint searchsorted_right (cdf : list F) (u : F) : nat :=
  match cdf with
  | [] => O
  | c :: cdf' => if fltb u c then O else S (searchsorted_right cdf' u)
  end.

Definition has_negative (l : list F) : bool :=
  existsb (fun x => fltb x fzero) l.

(** [abs(p.sum() - 1.) > atol] *)
Definition sum_off (atol : F) (l : list F) : bool :=
  fltb atol (fabs (fsum l - fone)%F).

(** [np.random.choice(a, p=p)] for an integer [a], one sample drawn with
    replacement.  The checks are NumPy's, in NumPy's order; [atol] is
    its tolerance on the sum of [p].  A valid [p] is sampled by inverting
    its normalised cumulative sum at one uniform draw. *)
Definition np_random_choice {G} {RS : RandomState G}
    (atol : F) (a : Z) (p : ndarray) (g : G) : result Z * G :=
  if a <=? 0 then (Raise ValueError, g)
  else match p with
       | A0 _ => (Raise TypeError, g)           (* len() of unsized object *)
       | A2 _ => (Raise ValueError, g)          (* 'p' must be 1-dimensional *)
       | A1 xs =>
           if negb (Z.of_nat (length xs) =? a) then (Raise ValueError, g)
           else if has_negative xs then (Raise ValueError, g)
           else if sum_off atol xs then (Raise ValueError, g)
           else
             let cdf := cumsum xs in
             let cdf := map (fun c => (c / last cdf fzero)%F) cdf in
             let (u, g') := random_sample g in
             (Ok (Z.of_nat (searchsorted_right cdf u)), g')
       end.

(** *** The categorical distribution of a probability vector

    What the specification means by sampling from the categorical
    distribution [p], stated without the array operations above: the mass
    of the actions [0 .. i], added up from the left, and the share of the
    whole mass it makes.  Under [p] a uniform draw [u] selects action [a]
    when [u] lies below the share of [0 .. a] and not below the share of
    [0 .. i] for any [i < a]. *)
Fixpoint mass_upto (p : list F) (i : nat) : F :=
  match i with
  | O => nth 0 p fzero
  | S i' => (mass_upto p i' + nth i p fzero)%F
  end.

Definition share (p : list F) (i : nat) : F :=
  (mass_upto p i / mass_upto p (length p - 1))%F.

End NumPy.
Arguments ndarray F : clear implicits.
Arguments RandomState F G : clear implicits.

(** ** Configuration *)

Inductive ActorCriticTask : Type := ACTOR | CRITIC.

Section Config.
Context {F : Type} {SF : Scalar F}.

(** The six slots of [ActorCriticConfig].  The integer arguments are
    Python integers: nothing restricts their sign. *)
Record ActorCriticConfig : Type := {
  num_actions : Z;
  reward_decay : F;
  actor_train_iters : Z;
  critic_train_iters : Z;
  k : Z;
  lam : F
}.

(** [ActorCriticConfig.__init__]; [k] and [lam] are optional with defaults
    [-1] and [1.0].  The body is six assignments. *)
Definition ActorCriticConfig_init
    (num_actions : Z) (reward_decay : F)
    (actor_train_iters critic_train_iters : Z)
    (k : option Z) (lam : option F) : result ActorCriticConfig :=
  Ok {| num_actions := num_actions;
        reward_decay := reward_decay;
        actor_train_iters := actor_train_iters;
        critic_train_iters := critic_train_iters;
        k := match k with Some k' => k' | None => -1 end;
        lam := match lam with Some l => l | None => fone end |}.

(** The constraints the specification lists for the hyperparameters. *)
Definition fleb (x y : F) : bool := negb (fltb y x).

Definition valid_hyperparameters (c : ActorCriticConfig) : bool :=
  (1 <=? num_actions c)
  && fleb fzero (reward_decay c) && fleb (reward_decay c) fone
  && fleb fzero (lam c) && fleb (lam c) fone
  && (0 <=? actor_train_iters c)
  && (0 <=? critic_train_iters c).

End Config.
Arguments ActorCriticConfig F : clear implicits.

(** ** Return estimation *)

Section Returns.
Context {F : Type} {SF : Scalar F}.

(** Modelled from the spec: [get_lambda_returns] of
    maro/rl/utils/trajectory_utils.py is imported by ac.py but is not
    among the sources.  The definitions below follow section 4.1 of the
    specification.

    The n-step return at [t]: the discounted rewards of the next [n]
    steps plus the discounted value estimate at the truncation point;
    when [t + n] reaches the end of the trajectory the sum stops there
    and there is no bootstrap term. *)
Definition n_step_return (gamma : F) (r v : list F) (t n : nat) : F :=
  let T := length r in
  let rewards :=
    fsum (map (fun i => (fpow gamma i * nth (t + i) r fzero)%F)
              (seq 0 (Nat.min n (T - t)))) in
  if Nat.ltb (t + n) T
  then (rewards + fpow gamma n * nth (t + n) v fzero)%F
  else rewards.

(** Modelled from the spec: the largest horizon used at a step with
    [remaining] steps left.  A negative [k] ([-1] in the specification)
    means the whole remaining trajectory; [k = 0] is treated as [k = 1]. *)
Definition horizon (k : Z) (remaining : nat) : nat :=
  if k <? 0 then remaining
  else Nat.min (Nat.max (Z.to_nat k) 1) remaining.

(** Modelled from the spec: the lambda-return at [t] blends the n-step
    returns for [n = 1 .. N] with weights [(1 - lam) * lam^(n-1)], the
    weight left over at the last horizon [N] going to that horizon. *)
Definition lambda_return (gamma lam : F) (k : Z) (r v : list F) (t : nat) : F :=
  let N := horizon k (length r - t) in
  ((fone - lam)
     * fsum (map (fun n => (fpow lam (n - 1) * n_step_return gamma r v t n)%F)
                 (seq 1 (N - 1)))
   + fpow lam (N - 1) * n_step_return gamma r v t N)%F.

(** Modelled from the spec: one return target per reward. *)
Definition get_lambda_returns (r v : list F) (gamma lam : F) (k : Z) : list F :=
  map (lambda_return gamma lam k r v) (seq 0 (length r)).

(** The Monte-Carlo return of the claim:
    the sum over [i = t .. T-1] of [gamma^(i-t) * r[i]]. *)
Definition monte_carlo_return (gamma : F) (r : list F) (t : nat) : F :=
  fsum (map (fun i => (fpow gamma (i - t) * nth i r fzero)%F)
            (seq t (length r - t))).

End Returns.

(** ** The algorithm object and its collaborators *)

Section ActorCritic.
Context {F : Type} {SF : Scalar F} {LF : Logarithm F}.
Variables State P G : Type.
Context {RS : RandomState F G}.

(** The core model as the tensor library holds it: its parameter set and
    the training-mode flag that [.eval()] clears. *)
Record Model : Type := {
  parameters : P;
  training : bool
}.

(** [core_model.eval()] *)
Definition eval (m : Model) : Model :=
  {| parameters := parameters m; training := false |}.

(** A scalar loss as [step] receives it: the tensor carries the
    computation that produced it, that is, the loss as a function of the
    model; quantities detached from the model are constants of that
    function. *)
Definition loss_graph : Type := Model -> result F.

(** [MultiTaskLearningModel] (maro/rl/models/learning_model.py) is
    injected at construction and is not among the sources; the algorithm
    uses the four members below.  The actor head returns one row of
    action probabilities per state, the critic head a column of one
    value per state. *)
Class MultiTaskLearningModel : Type := {
  forward_actor : Model -> list State -> list (list F);
  forward_critic : Model -> list State -> list F;
  step : Model -> loss_graph -> Model;
  has_trainable_shared_layers : Model -> bool
}.
Context {MTL : MultiTaskLearningModel}.

(** The attribute [self._critic_loss_func] that [train] reads.  Nothing
    in ac.py assigns it: it is not an argument of either constructor and
    not a slot of the configuration, although the docstring of the
    configuration lists [critic_loss_func].  [None] is the object as
    [ActorCritic.__init__] leaves it; [Some f] is an object on which the
    attribute has been set to [f] from outside the module. *)
Variable _critic_loss_func : option (tensor F -> tensor F -> result F).

(** NumPy's tolerance on the sum of a probability vector. *)
Variable atol : F.

(** Calls made on the collaborators, in order. *)
Inductive event : Type :=
| EForward (task : ActorCriticTask) (m : Model) (grad : bool) (x : list State)
| ELog (x : tensor F)
| ECriticLoss (prediction target : tensor F)
| EStep (m : Model) (loss : F).

Record world : Type := {
  core_model : Model;
  grad_enabled : bool;
  np_random : G;
  trace : list event
}.

Definition with_model (m : Model) (w : world) : world :=
  {| core_model := m; grad_enabled := grad_enabled w;
     np_random := np_random w; trace := trace w |}.

Definition with_grad (b : bool) (w : world) : world :=
  {| core_model := core_model w; grad_enabled := b;
     np_random := np_random w; trace := trace w |}.

Definition with_random (g : G) (w : world) : world :=
  {| core_model := core_model w; grad_enabled := grad_enabled w;
     np_random := g; trace := trace w |}.

Definition log_event (e : event) (w : world) : world :=
  {| core_model := core_model w; grad_enabled := grad_enabled w;
     np_random := np_random w; trace := trace w ++ [e] |}.

(** *** Methods run in the world and may raise *)

Definition M (A : Type) : Type := world -> result A * world.

Definition ret {A} (a : A) : M A := fun w => (Ok a, w).

Definition bind {A B} (c : M A) (f : A -> M B) : M B :=
  fun w => match c w with
           | (Ok a, w') => f a w'
           | (Raise e, w') => (Raise e, w')
           end.

Definition lift {A} (r : result A) : M A := fun w => (r, w).

Notation "x <- c ;; k" := (bind c (fun x => k))
  (at level 61, c at next level, right associativity).
Notation "c ;; k" := (bind c (fun _ => k))
  (at level 61, right associativity).

(** [self._core_model(x, task="actor")] and [task="critic"] *)
Definition call_actor (x : list State) : M (list (list F)) :=
  fun w => (Ok (forward_actor (core_model w) x),
            log_event (EForward ACTOR (core_model w) (grad_enabled w) x) w).

Definition call_critic (x : list State) : M (list F) :=
  fun w => (Ok (forward_critic (core_model w) x),
            log_event (EForward CRITIC (core_model w) (grad_enabled w) x) w).

Definition model_eval : M unit :=
  fun w => (Ok tt, with_model (eval (core_model w)) w).

(** [with torch.no_grad(): body]; the previous setting is restored on
    exit, also when the body raises. *)
Definition no_grad {A} (body : M A) : M A :=
  fun w => let (r, w') := body (with_grad false w) in
           (r, with_grad (grad_enabled w) w').

Definition torch_log (x : tensor F) : M (tensor F) :=
  fun w => (Ok (tmap flog x), log_event (ELog x) w).

(** Reading [self._critic_loss_func]: an [AttributeError] when the
    object has no such attribute. *)
Definition get_critic_loss_func : M (tensor F -> tensor F -> result F) :=
  lift (match _critic_loss_func with
        | Some f => Ok f
        | None => Raise AttributeError
        end).

(** Calling the loss function that was read. *)
Definition call_critic_loss_func (f : tensor F -> tensor F -> result F)
    (prediction target : tensor F) : M F :=
  fun w => (f prediction target,
            log_event (ECriticLoss prediction target) w).

(** [self._core_model.step(loss)]: [l] is the value of the loss, [g] the
    computation it carries. *)
Definition model_step (l : F) (g : loss_graph) : M unit :=
  fun w => (Ok tt,
            log_event (EStep (core_model w) l)
                      (with_model (step (core_model w) g) w)).

(** The world of [w] with another model in place and an empty trace. *)
Definition world_at (m : Model) (w : world) : world :=
  {| core_model := m; grad_enabled := grad_enabled w;
     np_random := np_random w; trace := [] |}.

(** The computation a loss carries: the same calls on another model,
    under the current gradient setting. *)
Definition graph_of (c : M F) : M loss_graph :=
  fun w => (Ok (fun m => fst (c (world_at m w))), w).

Definition np_choice (a : Z) (p : ndarray F) : M Z :=
  fun w => let (r, g) := np_random_choice atol a p (np_random w) in
           (r, with_random g w).

(** [for _ in range(n): body] *)
Fixpoint repeat_M (n : nat) (body : M unit) : M unit :=
  match n with
  | O => ret tt
  | S n' => body ;; repeat_M n' body
  end.

Definition for_range (n : Z) (body : M unit) : M unit :=
  repeat_M (Z.to_nat n) body.

(** *** ActorCritic *)

Variable cfg : ActorCriticConfig F.

(** [choose_action(self, state, epsilon=None)].  [state.unsqueeze(0)] is
    the batch [[state]]. *)
Definition choose_action (state : State) (epsilon : option F) : M Z :=
  model_eval ;;
  action_dist <- no_grad (out <- call_actor [state] ;; ret (squeeze2 out)) ;;
  np_choice (num_actions cfg) action_dist.

(** [_get_values_and_bootstrapped_returns]: the values are detached and
    squeezed, and go to [get_lambda_returns] as a NumPy array. *)
Definition _get_values_and_bootstrapped_returns
    (state_sequence : list State) (reward_sequence : list F)
    : M (tensor F * tensor F) :=
  out <- call_critic state_sequence ;;
  let state_values := squeeze_col out in
  let state_values_numpy := to_list state_values in
  let return_est :=
    get_lambda_returns reward_sequence state_values_numpy
                       (reward_decay cfg) (lam cfg) (k cfg) in
  ret (state_values, T1 return_est).

(** The two statements that build [actor_loss] in the first loop. *)
Definition actor_loss (states : list State) (actions : list Z)
    (advantages : tensor F) : M F :=
  out <- call_actor states ;;
  col <- lift (gather1 out actions) ;;
  let action_prob := squeeze_col col in
  logp <- torch_log action_prob ;;
  prod <- lift (tmul logp advantages) ;;
  ret (- tmean prod)%F.

(** The statement that builds [critic_loss] in the second loop.  The
    callee [self._critic_loss_func] is evaluated before its arguments, so
    the attribute is read before the critic head is evaluated. *)
Definition critic_loss (states : list State) (return_est : tensor F) : M F :=
  loss_func <- get_critic_loss_func ;;
  out <- call_critic states ;;
  call_critic_loss_func loss_func (squeeze_col out) return_est.

(** The loop under the comment "policy model training". *)
Definition policy_model_training (states : list State) (actions : list Z)
    (advantages : tensor F) : M unit :=
  for_range (actor_train_iters cfg)
    (l <- actor_loss states actions advantages ;;
     g <- graph_of (actor_loss states actions advantages) ;;
     model_step l g).

(** The loop under the comment "value model training". *)
Definition value_model_training (states : list State)
    (return_est : tensor F) : M unit :=
  for_range (critic_train_iters cfg)
    (l <- critic_loss states return_est ;;
     g <- graph_of (critic_loss states return_est) ;;
     model_step l g).

(** [train(self, states, actions, rewards)].  [_compute_actor_loss] has
    no body in the source and nothing calls it. *)
Definition train (states : list State) (actions : list Z) (rewards : list F)
    : M unit :=
  vr <- _get_values_and_bootstrapped_returns states rewards ;;
  let state_values := fst vr in
  let return_est := snd vr in
  advantages <- lift (tsub return_est state_values) ;;
  fun w =>
    if has_trainable_shared_layers (core_model w) then ret tt w
    else
      (policy_model_training states actions advantages ;;
       value_model_training states return_est) w.

(** *** The two loops, iteration by iteration *)

(** The probability the actor head gives, under model [m], to the action
    taken at step [t]. *)
Definition taken_prob (m : Model) (states : list State) (actions : list Z)
    (t : nat) : F :=
  nth (Z.to_nat (nth t actions 0)) (nth t (forward_actor m states) []) fzero.

(** The negated mean over [t] of [log(prob_t) * advantage_t]. *)
Definition policy_loss (m : Model) (states : list State) (actions : list Z)
    (advantages : list F) : F :=
  (- (fsum (map (fun t => flog (taken_prob m states actions t)
                          * nth t advantages fzero)
                (seq 0 (length actions)))
      / fof_nat (length actions)))%F.

(** The models a loop goes through: [n] successive models starting at
    [m], and the model left at the end. *)
Fixpoint iterates (update : Model -> Model) (n : nat) (m : Model)
    : list Model :=
  match n with
  | O => []
  | S n' => m :: iterates update n' (update m)
  end.

Fixpoint run_updates (update : Model -> Model) (n : nat) (m : Model) : Model :=
  match n with
  | O => m
  | S n' => run_updates update n' (update m)
  end.

Definition is_step (e : event) : bool :=
  match e with EStep _ _ => true | _ => false end.

(** One policy update and one value update, as functions of the model. *)
Definition policy_update (states : list State) (actions : list Z)
    (advantages : tensor F) (w : world) (m : Model) : Model :=
  step m (fun m' => fst (actor_loss states actions advantages (world_at m' w))).

Definition value_update (states : list State) (return_est : tensor F)
    (w : world) (m : Model) : Model :=
  step m (fun m' => fst (critic_loss states return_est (world_at m' w))).

(** The distribution [choose_action] hands to NumPy. *)
Definition action_dist (w : world) (state : State) : ndarray F :=
  squeeze2 (forward_actor (eval (core_model w)) [state]).

(** The calls of one iteration of the policy loop at model [m], and of one
    iteration of the value loop. *)
Definition policy_iteration_events (states : list State) (actions : list Z)
    (advantages : list F) (w : world) (m : Model) : list event :=
  [EForward ACTOR m (grad_enabled w) states;
   ELog (squeeze_col (map (taken_prob m states actions)
                          (seq 0 (length actions))));
   EStep m (policy_loss m states actions advantages)].

Definition value_iteration_events (states : list State)
    (return_est : tensor F) (loss : Model -> F) (w : world) (m : Model)
    : list event :=
  [EForward CRITIC m (grad_enabled w) states;
   ECriticLoss (squeeze_col (forward_critic m states)) return_est;
   EStep m (loss m)].

(** The world after [n] iterations of a loop that replaces the model by
    [update] of it and makes the calls [events]. *)
Definition after_iterations (update : Model -> Model)
    (events : Model -> list event) (n : nat) (w : world) : world :=
  {| core_model := run_updates update n (core_model w);
     grad_enabled := grad_enabled w;
     np_random := np_random w;
     trace := trace w ++ flat_map events (iterates update n (core_model w)) |}.

End ActorCritic.
Arguments event F State P : clear implicits.
Arguments EForward {F State P} task m grad x.
Arguments ELog {F State P} x.
Arguments ECriticLoss {F State P} prediction target.
Arguments EStep {F State P} m loss.
Arguments world F State P G : clear implicits.
Arguments M F State P G A : clear implicits.
Arguments loss_graph F P : clear implicits.
Arguments MultiTaskLearningModel F State P : clear implicits.

(** ** A small concrete model

    Integer scalars; a state and the parameter set are one integer each.
    The actor head is deterministic over two actions: it puts all the
    mass on the parity of [state + parameter].  The critic head is linear.
    [step] moves the parameter against the value of the loss. *)

Module Concrete.

Definition policy_row (theta x : Z) : list Z :=
  if Z.even (x + theta) then [1; 0] else [0; 1].

Definition loss_value (g : loss_graph Z Z) (m : Model Z) : Z :=
  match g m with Ok v => v | Raise _ => 0 end.

Definition heads (row : Z -> Z -> list Z) (shared : bool)
    : MultiTaskLearningModel Z Z Z := {|
  forward_actor := fun m xs => map (row (parameters m)) xs;
  forward_critic := fun m xs => map (fun x => x * parameters m) xs;
  step := fun m g =>
    {| parameters := parameters m - loss_value g m; training := training m |};
  has_trainable_shared_layers := fun _ => shared
|}.

Definition two_heads (shared : bool) : MultiTaskLearningModel Z Z Z :=
  heads policy_row shared.

(** An actor head that is not normalised: it returns the state and the
    parameter as they are. *)
Definition raw_heads : MultiTaskLearningModel Z Z Z :=
  heads (fun theta x => [x; theta]) false.

(** The sum of squared errors. *)
Definition squared_error (prediction target : tensor Z) : result Z :=
  rbind (tsub prediction target)
        (fun d => Ok (fsum (map (fun x => x * x) (to_list d)))).

(** The value of that loss under model [m], for the linear critic head. *)
Definition squared_loss (states : list Z) (target : tensor Z) (m : Model Z) : Z :=
  match squared_error (squeeze_col (map (fun x => x * parameters m) states))
                      target with
  | Ok v => v
  | Raise _ => 0
  end.

(** A random source that replays a tape of uniform draws. *)
#[export] Instance tape : RandomState Z (list Z) := {|
  random_sample := fun g => (hd 0 g, tl g)
|}.

Definition config (actor_iters critic_iters : Z) : ActorCriticConfig Z :=
  {| num_actions := 2; reward_decay := 2;
     actor_train_iters := actor_iters; critic_train_iters := critic_iters;
     k := -1; lam := 1 |}.

Definition initial (theta : Z) (mode : bool) (g : list Z)
    : world Z Z Z (list Z) :=
  {| core_model := {| parameters := theta; training := mode |};
     grad_enabled := true; np_random := g; trace := [] |}.

End Concrete.

(** ** What a method leaves alone *)

Section Ambient.
Context {F : Type} {State P G : Type}.

(** A method that leaves the gradient switch and NumPy's random source as
    it found them and only appends to the record of calls, whether it
    returns or raises. *)
Definition keeps_ambient {A} (c : M F State P G A) : Prop :=
  forall w,
    grad_enabled (snd (c w)) = grad_enabled w
    /\ np_random (snd (c w)) = np_random w
    /\ exists evs, trace (snd (c w)) = trace w ++ evs.

End Ambient.

(** ** The data-centre pipeline (maro/cli/data_pipeline/data_center.py)

    File names and URLs are Python strings; the calls on the download
    client, the logger and the clock are recorded as effects. *)

Module DataCenter.
Import Ascii String.

(** [s.split(sep)] for a separator of one character: the fields between
    the separators, one more than there are separators. *)
Fixpoint split (sep : ascii) (s : string) : list string :=
  match s with
  | EmptyString => [EmptyString]
  | String c s' =>
      if Ascii.eqb c sep then EmptyString :: split sep s'
      else match split sep s' with
           | h :: t => String c h :: t
           | [] => [String c EmptyString]
           end
  end.

(** [s.split(sep)[-1]] and [s.split(sep)[0]] *)
Definition last_field (sep : ascii) (s : string) : string :=
  last (split sep s) EmptyString.

Definition first_field (sep : ascii) (s : string) : string :=
  hd EmptyString (split sep s).

(** [s[:-3]]: all but the last three characters, nothing for a shorter
    string. *)
Definition drop_last3 (s : string) : string :=
  substring 0 (String.length s - 3) s.

(** [s * n] *)
Fixpoint repeat_string (s : string) (n : nat) : string :=
  match n with
  | O => EmptyString
  | S n' => (s ++ repeat_string s n')%string
  end.

(** The two kinds of line [_aria2p_download] acts on, by the last path
    component of the URL. *)
Definition is_vmtable (remote_url : string) : bool :=
  prefix "vmtable" (last_field "/" remote_url).

Definition is_cpu_readings (remote_url : string) : bool :=
  prefix "vm_cpu_readings" (last_field "/" remote_url).

(** The lines of a URL file that are to be fetched when nothing is
    skipped, in the order of the file: every [vmtable] line, and the
    [vm_cpu_readings] lines as long as fewer than [n] of them have come
    before. *)
Fixpoint lines_to_fetch (n : nat) (urls : list string) : list string :=
  match urls with
  | [] => []
  | u :: urls' =>
      if is_vmtable u then u :: lines_to_fetch n urls'
      else if is_cpu_readings u then
        match n with
        | O => lines_to_fetch n urls'
        | S n' => u :: lines_to_fetch n' urls'
        end
      else lines_to_fetch n urls'
  end.

(** The raw file name [clean] unzips an archive to, which is also the name
    [_preprocess] derives from a cleaned file name, and the cleaned file
    name [clean] records for an archive. *)
Definition raw_file_name_of (file_name : string) : string :=
  (first_field "." file_name ++ "_raw.csv")%string.

Definition clean_file_name_of (cpu_readings_file_name : string) : string :=
  drop_last3 cpu_readings_file_name.

Section Pipeline.

(** [os.path.join] and a download as the client reports it, with its
    progress already formatted to two decimals. *)
Variable os_path_join : string -> string -> string.
Variable Download : Type.
Variable download_name download_status download_progress_2f : Download -> string.
Variable is_complete : Download -> bool.

Inductive effect : Type :=
| InfoGreen (msg : string)
| Warning (msg : string)
| AddUris (uris : list string) (dir : string)
| Remove (downloads : list Download)
| Sleep (seconds : Z).

(** The attributes of a [DataCenterPipeline] the methods below use.  The
    two folders are set by the base class. *)
Record DataCenterPipeline : Type := {
  _download_folder : string;
  _clean_folder : string;
  _vm_table_file : string;
  _raw_vm_table_file : string;
  _cpu_readings_file_name_list : list string;
  _clean_cpu_readings_file_name_list : list string
}.

(** [DataCenterPipeline.__init__], after the base class has set the
    folders. *)
Definition DataCenterPipeline_init (download_folder clean_folder : string)
    : DataCenterPipeline :=
  {| _download_folder := download_folder;
     _clean_folder := clean_folder;
     _vm_table_file := os_path_join download_folder "vmtable.csv.gz";
     _raw_vm_table_file := os_path_join clean_folder "vmtable_raw.csv";
     _cpu_readings_file_name_list := [];
     _clean_cpu_readings_file_name_list := [] |}.

Definition record_cpu_readings_file (file_name : string)
    (self : DataCenterPipeline) : DataCenterPipeline :=
  {| _download_folder := _download_folder self;
     _clean_folder := _clean_folder self;
     _vm_table_file := _vm_table_file self;
     _raw_vm_table_file := _raw_vm_table_file self;
     _cpu_readings_file_name_list :=
       _cpu_readings_file_name_list self ++ [file_name];
     _clean_cpu_readings_file_name_list :=
       _clean_cpu_readings_file_name_list self |}.

(** The state of the loop of [_aria2p_download]: the counter [num_files],
    the pipeline and the effects so far. *)
Record scan_state : Type := {
  num_files : Z;
  pipeline : DataCenterPipeline;
  effects : list effect
}.

(** The body of the loop over the lines of the URL file.  [path_exists]
    is [os.path.exists] at the time the line is handled. *)
Definition scan_url (is_force : bool) (path_exists : string -> bool)
    (remote_url : string) (st : scan_state) : scan_state :=
  let self := pipeline st in
  let file_name := last_field "/" remote_url in
  if prefix "vmtable" file_name then
    if negb is_force && path_exists (_vm_table_file self) then
      {| num_files := num_files st; pipeline := self;
         effects := effects st
           ++ [InfoGreen (_vm_table_file self
                          ++ " already exists, skipping download.")%string] |}
    else
      {| num_files := num_files st; pipeline := self;
         effects := effects st
           ++ [InfoGreen ("Downloading vmtable from " ++ remote_url ++ " to "
                          ++ _vm_table_file self ++ ".")%string;
               AddUris [remote_url] (_download_folder self)] |}
  else if prefix "vm_cpu_readings" file_name && (0 <? num_files st) then
    let cpu_readings_file := os_path_join (_download_folder self) file_name in
    let self' := record_cpu_readings_file file_name self in
    if negb is_force && path_exists cpu_readings_file then
      {| num_files := num_files st - 1; pipeline := self';
         effects := effects st
           ++ [InfoGreen (cpu_readings_file
                          ++ " already exists, skipping download.")%string] |}
    else
      {| num_files := num_files st - 1; pipeline := self';
         effects := effects st
           ++ [InfoGreen ("Downloading cpu_readings from " ++ remote_url
                          ++ " to " ++ cpu_readings_file ++ ".")%string;
               AddUris [remote_url] (_download_folder self)] |}
  else st.

(** The loop itself; [path_exists_at i] answers [os.path.exists] while
    line [i] is handled. *)
Fixpoint scan_urls (is_force : bool) (path_exists_at : nat -> string -> bool)
    (i : nat) (urls : list string) (st : scan_state) : scan_state :=
  match urls with
  | [] => st
  | remote_url :: urls' =>
      scan_urls is_force path_exists_at (S i) urls'
                (scan_url is_force (path_exists_at i) remote_url st)
  end.

(** [_check_all_download_completed]: [polls i] is what the client's
    [get_downloads] answers to call number [i].  The loop has no bound of
    its own; [fuel] bounds the number of polls and [None] means that it
    ran out. *)
Fixpoint _check_all_download_completed (fuel : nat)
    (polls : nat -> list Download) (i : nat) (log : list effect)
    : option (list effect) :=
  match fuel with
  | O => None
  | S fuel' =>
      let downloads := polls i in
      if Nat.eqb (List.length downloads) 0 then
        Some (log ++ [InfoGreen "Doesn't exist any pending file."])
      else if forallb is_complete downloads then
        Some (log ++ [Remove downloads; InfoGreen "Download finished."])
      else
        _check_all_download_completed fuel' polls (S i)
          (log
           ++ map (fun d => InfoGreen (download_name d ++ ", "
                                       ++ download_status d ++ ", "
                                       ++ download_progress_2f d ++ "%")%string)
                  downloads
           ++ [InfoGreen (repeat_string "-" 60); Sleep 10])
  end.

(** A poll that still shows work to wait for: some download, and not all
    of them complete. *)
Definition pending (downloads : list Download) : bool :=
  negb (Nat.eqb (List.length downloads) 0)
  && negb (forallb is_complete downloads).

(** [_aria2p_download] on the lines of the URL file. *)
Definition _aria2p_download (fuel : nat) (is_force : bool)
    (urls : list string) (path_exists_at : nat -> string -> bool)
    (polls : nat -> list Download)
    (self : DataCenterPipeline) (log : list effect)
    : option (DataCenterPipeline * list effect) :=
  let st := scan_urls is_force path_exists_at 0 urls
              {| num_files := 2; pipeline := self;
                 effects := log ++ [InfoGreen
                                      "Downloading vmtable and cpu readings."] |} in
  match _check_all_download_completed fuel polls 0 (effects st) with
  | Some log' => Some (pipeline st, log')
  | None => None
  end.

(** The URLs handed to the download client by a list of effects. *)
Definition submitted (es : list effect) : list string :=
  flat_map (fun e => match e with AddUris uris _ => uris | _ => [] end) es.

Definition is_remove (e : effect) : bool :=
  match e with Remove _ => true | _ => false end.

Definition is_sleep (e : effect) : bool :=
  match e with Sleep _ => true | _ => false end.

End Pipeline.
Arguments InfoGreen {Download} msg.
Arguments Warning {Download} msg.
Arguments AddUris {Download} uris dir.
Arguments Remove {Download} downloads.
Arguments Sleep {Download} seconds.

(** *** Converting the ids of a CPU-readings file *)

Inductive error : Type :=
| IndexError
| KeyError.

Inductive outcome (A : Type) : Type :=
| Done (a : A)
| Failed (e : error).
Arguments Done {A} a.
Arguments Failed {A} e.

Section Convert.

(** The new ids; [loc] is [vm_id_map.loc[key]]. *)
Variable Id : Type.
Variable loc : string -> outcome Id.

(** A field of a row handed to the CSV writer: text as it was read, or a
    new id. *)
Inductive field : Type :=
| Text (s : string)
| NewId (v : Id).

(** [row[1] = vm_id_map.loc[row[1]]] on a row as the CSV reader yields
    it. *)
Definition convert_row (row : list string) : outcome (list field) :=
  match row with
  | f0 :: f1 :: rest =>
      match loc f1 with
      | Done v => Done (Text f0 :: NewId v :: map Text rest)
      | Failed e => Failed e
      end
  | _ => Failed IndexError
  end.

(** [_convert_cpu_readings_id] on the rows of the old file: the rows
    written to the new file, and how the loop ended. *)
Fixpoint _convert_cpu_readings_id (rows : list (list string))
    (written : list (list field)) : outcome unit * list (list field) :=
  match rows with
  | [] => (Done tt, written)
  | row :: rows' =>
      match convert_row row with
      | Done row' => _convert_cpu_readings_id rows' (written ++ [row'])
      | Failed e => (Failed e, written)
      end
  end.

End Convert.

End DataCenter.

(** A small concrete pipeline: three CPU-readings archives listed after
    the VM table, downloads that complete at the third poll, and an id map
    with two keys. *)

Module DataCenterSample.
Import Ascii String DataCenter.
Local Open Scope string_scope.

Definition join (a b : string) : string := a ++ "/" ++ b.

Definition urls : list string :=
  ["https://host/trace/vmtable/vmtable.csv.gz";
   "https://host/trace/vm_cpu_readings/vm_cpu_readings-file-1-of-195.csv.gz";
   "https://host/trace/deployments/deployments.csv.gz";
   "https://host/trace/vm_cpu_readings/vm_cpu_readings-file-2-of-195.csv.gz";
   "https://host/trace/vm_cpu_readings/vm_cpu_readings-file-3-of-195.csv.gz"]%list.

Definition self : DataCenterPipeline := DataCenterPipeline_init join "/d" "/c".

(** A download is its name and whether it is complete. *)
Definition polls (i : nat) : list (string * bool) :=
  match i with
  | O => [("vmtable.csv.gz", false)]
  | S O => [("vmtable.csv.gz", true); ("vm_cpu_readings-file-1", false)]
  | _ => [("vmtable.csv.gz", true); ("vm_cpu_readings-file-1", true)]
  end%list.

Definition stuck (i : nat) : list (string * bool) :=
  [("vmtable.csv.gz", false)]%list.

Definition status_of (d : string * bool) : string :=
  if snd d then "complete" else "active".

Definition progress_of (d : string * bool) : string :=
  if snd d then "100.00" else "50.00".

Definition id_of (key : string) : outcome Z :=
  if String.eqb key "vmA" then Done 1%Z
  else if String.eqb key "vmB" then Done 2%Z
  else Failed KeyError.

Definition readings : list (list string) :=
  [["0"; "vmA"; "1.5"; "3.0"; "2.0"];
   ["300"; "vmB"; "0.5"; "9.0"; "4.0"]]%list.

End DataCenterSample.

(** * Properties *)

(** ** Running methods *)

Section Running.
Context {F : Type} {SF : Scalar F} {LF : Logarithm F}.
Context {State P G : Type}.

Lemma bind_ok {A B} (c : M F State P G A) (f : A -> M F State P G B) w a w' :
  c w = (Ok a, w') -> bind c f w = f a w'.
Proof. intros E. unfold bind. now rewrite E. Qed.

End Running.

(** ** Return estimation (C1) *)

Section MonteCarlo.
Context {F : Type} {SF : Scalar F}.

Lemma seq_offset (t n : nat) : seq t n = map (fun i => (t + i)%nat) (seq 0 n).
Proof.
  revert t. induction n as [|n IH]; intros t; simpl; [reflexivity|].
  rewrite Nat.add_0_r. f_equal.
  rewrite (IH (S t)), (IH 1%nat), map_map.
  apply map_ext. intros i. lia.
Qed.

(** The full-horizon n-step return has no bootstrap term and is the
    Monte-Carlo return. *)
Lemma n_step_return_full (gamma : F) (r v : list F) (t : nat) :
  (t <= length r)%nat ->
  n_step_return gamma r v t (length r - t) = monte_carlo_return gamma r t.
Proof.
  intros Ht. unfold n_step_return, monte_carlo_return.
  replace (Nat.ltb (t + (length r - t)) (length r)) with false
    by (symmetry; apply Nat.ltb_ge; lia).
  rewrite Nat.min_id, (seq_offset t), map_map.
  f_equal. apply map_ext. intros i.
  now replace (t + i - t)%nat with i by lia.
Qed.

Lemma horizon_full (k : Z) (n : nat) : k < 0 -> horizon k n = n.
Proof. intros Hk. unfold horizon. now apply Z.ltb_lt in Hk as ->. Qed.

Lemma get_lambda_returns_length (r v : list F) gamma lam k :
  length (get_lambda_returns r v gamma lam k) = length r.
Proof. unfold get_lambda_returns. now rewrite length_map, length_seq. Qed.

Hypothesis Fring : ring_theory fzero fone fadd fmul fsub fopp (@eq F).
Add Ring Fr : Fring.

Lemma fpow_one (n : nat) : fpow fone n = fone.
Proof. induction n as [|n IH]; simpl; [reflexivity|]. rewrite IH. ring. Qed.

(** With [lam = 1] every blended horizon but the last has weight zero. *)
Lemma lambda_return_lam_one (gamma : F) (k : Z) (r v : list F) (t : nat) :
  lambda_return gamma fone k r v t
  = n_step_return gamma r v t (horizon k (length r - t)).
Proof. unfold lambda_return. rewrite fpow_one. ring. Qed.

Lemma get_lambda_returns_monte_carlo (gamma : F) (r v : list F) :
  get_lambda_returns r v gamma fone (-1)
  = map (monte_carlo_return gamma r) (seq 0 (length r)).
Proof.
  unfold get_lambda_returns. apply map_ext_in. intros t Ht.
  apply in_seq in Ht.
  rewrite lambda_return_lam_one, horizon_full by lia.
  apply n_step_return_full. lia.
Qed.

End MonteCarlo.

(** The end-to-end scenario of the specification: rewards [1, 0, 2] with
    decay 9/10 give the returns 2.62, 1.8 and 2, whatever the values. *)
Example end_to_end_returns (v : list Qc) :
  get_lambda_returns [1; 0; Q2Qc 2]%Qc v (Q2Qc (9 # 10)) 1%Qc (-1)
  = [Q2Qc (262 # 100); Q2Qc (18 # 10); Q2Qc 2].
Proof.
  rewrite (get_lambda_returns_monte_carlo (SF := QcScalar) Qcrt).
  unfold monte_carlo_return.
  cbn [length Nat.sub seq map fsum fold_right nth fpow].
  repeat (f_equal; try (apply Qc_is_canon; reflexivity)).
Qed.

(** The boundary case of the specification: a trajectory of one step has
    its reward as return. *)
Example single_step_return (r0 : Z) (v : list Z) :
  get_lambda_returns [r0] v 2 1 (-1) = [r0].
Proof.
  rewrite (get_lambda_returns_monte_carlo (SF := ZScalar) Zth).
  unfold monte_carlo_return. cbn. f_equal. destruct r0; reflexivity.
Qed.

Section ReturnEstimate.
Context {F : Type} {SF : Scalar F}.
Context {State P G : Type} {MTL : MultiTaskLearningModel F State P}.
Hypothesis Fring : ring_theory fzero fone fadd fmul fsub fopp (@eq F).

(** C1.  With [lam = 1] and [k = -1] the return estimate that
    [_get_values_and_bootstrapped_returns] hands to [train] has one
    entry per reward, its entry [t] is the Monte-Carlo return
    [sum_{i=t}^{T-1} gamma^(i-t) * r[i]], and the same estimate results
    from every value sequence.  Scalars are taken in a commutative
    ring. *)
Theorem monte_carlo_return_estimate
    (cfg : ActorCriticConfig F) (states : list State) (rewards : list F)
    (w : world F State P G) :
  lam cfg = fone -> k cfg = -1 ->
  exists G_ : list F,
    fst (_get_values_and_bootstrapped_returns cfg states rewards w)
    = Ok (squeeze_col (forward_critic (core_model w) states), T1 G_)
    /\ length G_ = length rewards
    /\ (forall t, (t < length rewards)%nat ->
          nth t G_ fzero = monte_carlo_return (reward_decay cfg) rewards t)
    /\ (forall v : list F,
          get_lambda_returns rewards v (reward_decay cfg) (lam cfg) (k cfg)
          = G_).
Proof.
  intros Hlam Hk.
  exists (map (monte_carlo_return (reward_decay cfg) rewards)
              (seq 0 (length rewards))).
  repeat split.
  - unfold _get_values_and_bootstrapped_returns, bind, call_critic, ret.
    simpl. rewrite Hlam, Hk.
    now rewrite (get_lambda_returns_monte_carlo Fring).
  - now rewrite length_map, length_seq.
  - intros t Ht.
    rewrite (nth_indep _ fzero
               (monte_carlo_return (reward_decay cfg) rewards 0%nat))
      by now rewrite length_map, length_seq.
    now rewrite (map_nth (monte_carlo_return (reward_decay cfg) rewards)),
      seq_nth.
  - intros v. rewrite Hlam, Hk.
    apply (get_lambda_returns_monte_carlo Fring).
Qed.

End ReturnEstimate.

Lemma monte_carlo_return_estimate_witness :
  exists G_ : list Z,
    fst (_get_values_and_bootstrapped_returns
           (MTL := Concrete.two_heads false) (Concrete.config 2 2)
           [0; 1; 2] [1; 0; 2] (Concrete.initial 3 true []))
    = Ok (squeeze_col
            (forward_critic (MultiTaskLearningModel := Concrete.two_heads false)
               (core_model (Concrete.initial 3 true [])) [0; 1; 2]), T1 G_)
    /\ length G_ = length [1; 0; 2]
    /\ (forall t, (t < length [1; 0; 2])%nat ->
          nth t G_ fzero = monte_carlo_return 2 [1; 0; 2] t)
    /\ (forall v : list Z,
          get_lambda_returns [1; 0; 2] v 2 1 (-1) = G_).
Proof.
  apply (monte_carlo_return_estimate (SF := ZScalar) Zth
           (MTL := Concrete.two_heads false)
           (Concrete.config 2 2) [0; 1; 2] [1; 0; 2]
           (Concrete.initial 3 true []));
    reflexivity.
Defined.

(** ** Tensor operations *)

Section TensorFacts.
Context {F : Type} {SF : Scalar F}.

Lemma to_list_squeeze_col (col : list F) : to_list (squeeze_col col) = col.
Proof. destruct col as [|x [|y col]]; reflexivity. Qed.

Lemma zip_with_length (op : F -> F -> F) (l1 l2 : list F) :
  length l1 = length l2 -> length (zip_with op l1 l2) = length l1.
Proof.
  revert l2. induction l1 as [|x l1 IH]; intros [|y l2] E; simpl in *;
    try discriminate; [reflexivity|].
  f_equal. apply IH. now injection E.
Qed.

Lemma zip_with_nth (op : F -> F -> F) (l1 l2 : list F) (d : F) (t : nat) :
  length l1 = length l2 -> (t < length l1)%nat ->
  nth t (zip_with op l1 l2) d = op (nth t l1 d) (nth t l2 d).
Proof.
  revert l2 t. induction l1 as [|x l1 IH]; intros [|y l2] t E Ht;
    simpl in *; try discriminate; try lia.
  destruct t as [|t]; [reflexivity|].
  apply IH; [now injection E | lia].
Qed.

(** A list is the table of its entries. *)
Lemma list_as_table (l : list F) (d : F) :
  l = map (fun t => nth t l d) (seq 0 (length l)).
Proof.
  induction l as [|x l IH]; simpl; [reflexivity|].
  f_equal. rewrite <- seq_shift, map_map. exact IH.
Qed.

(** Subtracting a squeezed column from a vector of the same length. *)
Lemma tsub_equal_length (G_ V : list F) :
  length G_ = length V ->
  tsub (T1 G_) (squeeze_col V) = Ok (T1 (zip_with fsub G_ V)).
Proof.
  intros E. destruct V as [|v [|v' V]].
  - destruct G_; [reflexivity | discriminate].
  - destruct G_ as [|g [|g' G_]]; try discriminate. reflexivity.
  - unfold tsub, squeeze_col, broadcast.
    now rewrite E, Nat.eqb_refl.
Qed.

Lemma tsub_differing_length (G_ V : list F) :
  length G_ <> length V -> length G_ <> 1%nat -> length V <> 1%nat ->
  tsub (T1 G_) (squeeze_col V) = Raise RuntimeError.
Proof.
  intros E HG HV. destruct V as [|v [|v' V]].
  - destruct G_ as [|g [|g' G_]]; simpl in *; congruence.
  - simpl in HV. congruence.
  - unfold tsub, squeeze_col, broadcast.
    apply Nat.eqb_neq in E. rewrite E.
    destruct G_ as [|g [|g' G_]]; simpl in *; congruence.
Qed.

Lemma tsub_broadcast_value (G_ : list F) (v : F) :
  tsub (T1 G_) (squeeze_col [v]) = Ok (T1 (map (fun g => (g - v)%F) G_)).
Proof. reflexivity. Qed.

Lemma tsub_broadcast_target (g : F) (V : list F) :
  length V <> 1%nat ->
  tsub (T1 [g]) (squeeze_col V) = Ok (T1 (map (fun v => (g - v)%F) V)).
Proof.
  intros HV. destruct V as [|v [|v' V]]; simpl in *; try congruence;
    reflexivity.
Qed.


End TensorFacts.



(** ** Configuration (C4) *)

Section ConfigFacts.
Context {F : Type} {SF : Scalar F}.

(** C4 (amended).  Constructing the configuration stores the six
    hyperparameters as they are given ([k] and [lam] defaulting to [-1]
    and [1]); no value is checked and the constructor never raises. *)
Theorem config_init_stores_arguments
    (n : Z) (decay : F) (actor_iters critic_iters : Z)
    (k_ : option Z) (lam_ : option F) :
  exists c : ActorCriticConfig F,
    ActorCriticConfig_init n decay actor_iters critic_iters k_ lam_ = Ok c
    /\ num_actions c = n
    /\ reward_decay c = decay
    /\ actor_train_iters c = actor_iters
    /\ critic_train_iters c = critic_iters
    /\ k c = match k_ with Some k' => k' | None => -1 end
    /\ lam c = match lam_ with Some l => l | None => fone end.
Proof. eexists. repeat split. Qed.

End ConfigFacts.

(** C4 as stated fails: no action, a decay of 2, a lambda of -3 and
    negative iteration counts are all accepted. *)
Lemma config_init_counterexample :
  exists c : ActorCriticConfig Z,
    ActorCriticConfig_init 0 2 (-1) (-2) None (Some (-3)) = Ok c
    /\ valid_hyperparameters c = false
    /\ num_actions c = 0 /\ reward_decay c = 2
    /\ actor_train_iters c = -1 /\ critic_train_iters c = -2
    /\ lam c = -3.
Proof. eexists. repeat split. Qed.

(** ** Action sampling (C5, C9, C10) *)

Section ChooseAction.
Context {F : Type} {SF : Scalar F}.
Context {State P G : Type} {RS : RandomState F G}.
Context {MTL : MultiTaskLearningModel F State P}.
Variable atol : F.
Variable cfg : ActorCriticConfig F.

Lemma choose_action_run (state : State) (epsilon : option F)
    (w : world F State P G) :
  choose_action atol cfg state epsilon w
  = (fst (np_random_choice atol (num_actions cfg) (action_dist w state)
            (np_random w)),
     {| core_model := eval (core_model w);
        grad_enabled := grad_enabled w;
        np_random := snd (np_random_choice atol (num_actions cfg)
                            (action_dist w state) (np_random w));
        trace := trace w
                 ++ [EForward ACTOR (eval (core_model w)) false [state]] |}).
Proof.
  unfold choose_action, bind, model_eval, no_grad, call_actor, ret,
    np_choice, action_dist. simpl.
  now destruct (np_random_choice _ _ _ _).
Qed.

(** NumPy rejects every array that has a negative entry or whose sum is
    off by more than the tolerance, whatever its shape. *)
Lemma np_random_choice_rejects (a : Z) (p : ndarray F) (g : G) :
  (exists x, In x (entries p) /\ fltb x fzero = true)
  \/ fltb atol (fabs (fsum (entries p) - fone)%F) = true ->
  fst (np_random_choice atol a p g) = Raise ValueError
  \/ fst (np_random_choice atol a p g) = Raise TypeError.
Proof.
  intros H.
  assert (H' : has_negative (entries p) = true
               \/ sum_off atol (entries p) = true).
  { destruct H as [H|H]; [left; now apply existsb_exists | now right]. }
  clear H. unfold np_random_choice.
  destruct (a <=? 0); [now left|].
  destruct p as [x|xs|rows]; simpl in *; [now right| |now left].
  destruct (negb _); [now left|].
  destruct (has_negative xs); [now left|].
  destruct (sum_off atol xs); [now left|].
  destruct H'; discriminate.
Qed.

Lemma has_negative_none (l : list F) :
  (forall x, In x l -> fltb x fzero = false) -> has_negative l = false.
Proof.
  intros H. destruct (has_negative l) eqn:E; [|reflexivity].
  apply existsb_exists in E as (x & Hx & Hneg).
  rewrite (H x Hx) in Hneg. discriminate.
Qed.

Lemma np_random_choice_samples (a : Z) (xs : list F) (g : G) :
  0 < a -> Z.of_nat (length xs) = a ->
  has_negative xs = false -> sum_off atol xs = false ->
  np_random_choice atol a (A1 xs) g
  = (Ok (Z.of_nat
           (searchsorted_right
              (map (fun c => (c / last (cumsum xs) fzero)%F) (cumsum xs))
              (fst (random_sample g)))),
     snd (random_sample g)).
Proof.
  intros Ha Hlen Hneg Hsum. unfold np_random_choice.
  replace (a <=? 0) with false by (symmetry; apply Z.leb_gt; lia).
  rewrite Hlen, Z.eqb_refl, Hneg, Hsum. simpl.
  now destruct (random_sample g).
Qed.

(** *** The cumulative sum and the search, entry by entry *)

Lemma cumsum_from_length (acc : F) (l : list F) :
  length (cumsum_from acc l) = length l.
Proof.
  revert acc. induction l as [|x l IH]; intros acc; simpl;
    [reflexivity | now rewrite IH].
Qed.

Lemma cumsum_length (l : list F) : length (cumsum l) = length l.
Proof. destruct l; simpl; [reflexivity | now rewrite cumsum_from_length]. Qed.

(** Every entry of a running sum is the entry before it (the start value
    for the first) plus the entry of the list at that place. *)
Lemma cumsum_from_step (acc : F) (l : list F) (i : nat) :
  (i < length l)%nat ->
  nth i (cumsum_from acc l) fzero
  = (match i with
     | O => acc
     | S i' => nth i' (cumsum_from acc l) fzero
     end + nth i l fzero)%F.
Proof.
  revert acc i. induction l as [|x l IH]; intros acc i Hi; simpl in Hi; [lia|].
  destruct i as [|i]; [reflexivity|].
  cbn [cumsum_from nth]. rewrite IH by lia.
  destruct i; reflexivity.
Qed.

(** Entry [i] of [p.cumsum()] is the mass of the actions [0 .. i]. *)
Lemma cumsum_mass (l : list F) (i : nat) :
  (i < length l)%nat -> nth i (cumsum l) fzero = mass_upto l i.
Proof.
  induction i as [|i IH]; intros Hi.
  - destruct l; [simpl in Hi; lia | reflexivity].
  - destruct l as [|x l]; [simpl in Hi; lia|].
    cbn [mass_upto]. rewrite <- IH by lia.
    simpl in Hi. cbn [cumsum nth].
    rewrite cumsum_from_step by lia.
    destruct i; reflexivity.
Qed.

Lemma last_as_nth {A} (l : list A) (d : A) :
  last l d = nth (length l - 1) l d.
Proof.
  induction l as [|x l IH]; [reflexivity|].
  destruct l as [|y l]; [reflexivity|].
  change (last (x :: y :: l) d) with (last (y :: l) d). rewrite IH.
  cbn [length Nat.sub nth]. now rewrite Nat.sub_0_r.
Qed.

(** Entry [i] of the normalised cumulative sum is the share of the
    actions [0 .. i]. *)
Lemma normalised_cdf_nth (xs : list F) (i : nat) :
  (i < length xs)%nat ->
  nth i (map (fun c => (c / last (cumsum xs) fzero)%F) (cumsum xs)) fzero
  = share xs i.
Proof.
  intros Hi.
  set (f := fun c : F => (c / last (cumsum xs) fzero)%F).
  rewrite (nth_indep _ fzero (f fzero))
    by (now rewrite length_map, cumsum_length).
  rewrite (map_nth f). unfold f, share.
  rewrite last_as_nth, cumsum_length, !cumsum_mass by lia.
  reflexivity.
Qed.

(** The search returns the first place whose entry is above the draw,
    and the length when there is none. *)
Lemma searchsorted_right_first (cdf : list F) (u : F) :
  (searchsorted_right cdf u <= length cdf)%nat
  /\ (forall i, (i < searchsorted_right cdf u)%nat ->
        fltb u (nth i cdf fzero) = false)
  /\ ((searchsorted_right cdf u < length cdf)%nat ->
        fltb u (nth (searchsorted_right cdf u) cdf fzero) = true).
Proof.
  induction cdf as [|c cdf (IHle & IHbelow & IHat)]; simpl.
  - repeat split; intros; lia.
  - destruct (fltb u c) eqn:E.
    + repeat split; [lia | intros i Hi; lia | intros _; exact E].
    + repeat split; [lia | | intros H; apply IHat; lia].
      intros [|i] Hi; [exact E | apply IHbelow; lia].
Qed.


(** C9.  Two calls of [choose_action] on the same state, made with the
    same parameters and the same state of the random source, return the
    same action (or fail alike) and leave the random source in the same
    state; the mode the model was in and the epsilon argument make no
    difference. *)
Theorem choose_action_deterministic (state : State)
    (epsilon epsilon' : option F) (w w' : world F State P G) :
  parameters (core_model w) = parameters (core_model w') ->
  np_random w = np_random w' ->
  fst (choose_action atol cfg state epsilon w)
  = fst (choose_action atol cfg state epsilon' w')
  /\ np_random (snd (choose_action atol cfg state epsilon w))
     = np_random (snd (choose_action atol cfg state epsilon' w')).
Proof.
  intros Hp Hg. rewrite !choose_action_run. simpl.
  unfold action_dist, eval. now rewrite Hp, Hg.
Qed.

(** C10.  [choose_action] does not read [epsilon]: any two values of it,
    [None] included, give the same result and leave the same world; the
    one forward pass and the distribution handed to NumPy are determined
    by the model and the state alone. *)
Theorem choose_action_ignores_epsilon (state : State)
    (epsilon epsilon' : option F) (w : world F State P G) :
  choose_action atol cfg state epsilon w
  = choose_action atol cfg state epsilon' w
  /\ trace (snd (choose_action atol cfg state epsilon w))
     = trace w ++ [EForward ACTOR (eval (core_model w)) false [state]]
  /\ fst (choose_action atol cfg state epsilon w)
     = fst (np_random_choice atol (num_actions cfg) (action_dist w state)
              (np_random w)).
Proof.
  split; [reflexivity|].
  rewrite choose_action_run. simpl.
  split; reflexivity.
Qed.

End ChooseAction.


(** The action drawn in that run is action 1, the only one with mass. *)
Example choose_action_sample :
  fst (choose_action (RS := Concrete.tape) (MTL := Concrete.two_heads false)
         0 (Concrete.config 1 1) 4 None (Concrete.initial 3 true [0]))
  = Ok 1.
Proof. reflexivity. Qed.

Lemma choose_action_deterministic_witness :
  fst (choose_action (RS := Concrete.tape) (MTL := Concrete.two_heads false) 0 (Concrete.config 1 1)
         4 None (Concrete.initial 3 true [0]))
  = fst (choose_action (RS := Concrete.tape) (MTL := Concrete.two_heads false) 0 (Concrete.config 1 1)
           4 (Some 7) (Concrete.initial 3 false [0]))
  /\ np_random
       (snd (choose_action (RS := Concrete.tape) (MTL := Concrete.two_heads false) 0
               (Concrete.config 1 1) 4 None (Concrete.initial 3 true [0])))
     = np_random
         (snd (choose_action (RS := Concrete.tape) (MTL := Concrete.two_heads false) 0
                 (Concrete.config 1 1) 4 (Some 7)
                 (Concrete.initial 3 false [0]))).
Proof.
  apply (choose_action_deterministic (RS := Concrete.tape) (MTL := Concrete.two_heads false) 0
           (Concrete.config 1 1) 4 None (Some 7)
           (Concrete.initial 3 true [0]) (Concrete.initial 3 false [0]));
    reflexivity.
Defined.

(** ** The loops of [train] (C2, C3, C7) *)

Section GatherFacts.
Context {F : Type} {SF : Scalar F} {LF : Logarithm F}.

Lemma table_shift {A} (f : nat -> A) (n : nat) :
  map f (seq 1 n) = map (fun t => f (S t)) (seq 0 n).
Proof. now rewrite <- seq_shift, map_map. Qed.

(** What [gather1] returns when it returns: one entry per index, taken
    from the row of the same position. *)
Lemma gather1_entries (rows : list (list F)) (index : list Z) (col : list F) :
  gather1 rows index = Ok col ->
  col = map (fun t => nth (Z.to_nat (nth t index 0)) (nth t rows []) fzero)
            (seq 0 (length index)).
Proof.
  revert rows col. induction index as [|i index IH]; intros rows col E.
  - simpl in E. now injection E as <-.
  - destruct rows as [|row rows]; simpl in E; [discriminate|].
    destruct ((0 <=? i) && (i <? Z.of_nat (length row))); [|discriminate].
    destruct (gather1 rows index) as [l|e] eqn:El; simpl in E; [|discriminate].
    injection E as <-. simpl. f_equal.
    rewrite table_shift. now apply IH.
Qed.

(** [gather1] returns when every index lies in its row. *)
Lemma gather1_in_range (rows : list (list F)) (index : list Z) :
  (forall t, (t < length index)%nat ->
     0 <= nth t index 0 < Z.of_nat (length (nth t rows []))) ->
  exists col, gather1 rows index = Ok col.
Proof.
  revert rows. induction index as [|i index IH]; intros rows H.
  - now exists [].
  - destruct rows as [|row rows].
    + specialize (H 0%nat). simpl in H. lia.
    + simpl.
      assert (H0 := H 0%nat). simpl in H0.
      replace ((0 <=? i) && (i <? Z.of_nat (length row))) with true
        by (symmetry; apply andb_true_iff; split;
            [apply Z.leb_le | apply Z.ltb_lt]; lia).
      destruct (IH rows) as [l El].
      * intros t Ht. apply (H (S t)). simpl. lia.
      * rewrite El. simpl. now eexists.
Qed.

Lemma zip_with_map_map {A} (op : F -> F -> F) (f g : A -> F) (l : list A) :
  zip_with op (map f l) (map g l) = map (fun x => op (f x) (g x)) l.
Proof. induction l as [|x l IH]; simpl; [reflexivity|]. now rewrite IH. Qed.

(** The product of the logarithms of a squeezed column with a vector of
    the same length. *)
Lemma tmul_log_equal_length (col adv : list F) :
  length col = length adv ->
  tmul (tmap flog (squeeze_col col)) (T1 adv)
  = Ok (T1 (zip_with fmul (map flog col) adv)).
Proof.
  intros E. destruct col as [|x [|y col]].
  - destruct adv; [reflexivity | discriminate].
  - destruct adv as [|a [|a' adv]]; try discriminate. reflexivity.
  - unfold tmul, squeeze_col, tmap, broadcast.
    now rewrite length_map, E, Nat.eqb_refl.
Qed.

End GatherFacts.

Section TrainFacts.
Context {F : Type} {SF : Scalar F} {LF : Logarithm F}.
Context {State P G : Type} {MTL : MultiTaskLearningModel F State P}.
Variable critic_loss_func : option (tensor F -> tensor F -> result F).
Variable cfg : ActorCriticConfig F.

(** A loop whose body always succeeds, replaces the model by [update] of
    it and makes the calls [events] runs [n] such iterations. *)
Lemma repeat_M_run (body : M F State P G unit)
    (update : Model P -> Model P) (events : Model P -> list (event F State P))
    (w0 : world F State P G) :
  (forall w, grad_enabled w = grad_enabled w0 -> np_random w = np_random w0 ->
     body w = (Ok tt, {| core_model := update (core_model w);
                         grad_enabled := grad_enabled w0;
                         np_random := np_random w0;
                         trace := trace w ++ events (core_model w) |})) ->
  forall n w,
    grad_enabled w = grad_enabled w0 -> np_random w = np_random w0 ->
    repeat_M n body w = (Ok tt, after_iterations update events n w).
Proof.
  intros Hbody. induction n as [|n IH]; intros w Hgr Hrng.
  - destruct w as [m gr rng tr]. unfold after_iterations. simpl.
    now rewrite app_nil_r.
  - simpl. rewrite (bind_ok _ _ _ (Hbody w Hgr Hrng)).
    rewrite IH by reflexivity.
    unfold after_iterations. simpl. now rewrite Hgr, Hrng, app_assoc.
Qed.

Lemma after_iterations_steps (update : Model P -> Model P)
    (events : Model P -> list (event F State P)) (n : nat) (m : Model P) :
  (forall m', length (filter (@is_step F State P) (events m')) = 1%nat) ->
  length (filter (@is_step F State P) (flat_map events (iterates update n m))) = n.
Proof.
  intros H. revert m. induction n as [|n IH]; intros m; simpl; [reflexivity|].
  now rewrite filter_app, length_app, H, IH.
Qed.

(** One evaluation of [actor_loss] on well-shaped inputs. *)
Lemma actor_loss_run (states : list State) (actions : list Z) (adv : list F)
    (w : world F State P G) :
  length adv = length actions ->
  (forall t, (t < length actions)%nat ->
     0 <= nth t actions 0
       < Z.of_nat (length (nth t (forward_actor (core_model w) states) []))) ->
  actor_loss states actions (T1 adv) w
  = (Ok (policy_loss (core_model w) states actions adv),
     log_event
       (ELog (squeeze_col (map (taken_prob (core_model w) states actions)
                               (seq 0 (length actions)))))
       (log_event (EForward ACTOR (core_model w) (grad_enabled w) states) w)).
Proof.
  intros Hadv Hrange.
  destruct (gather1_in_range _ _ Hrange) as [col Ecol].
  assert (Hcol := gather1_entries _ _ Ecol).
  fold (taken_prob (core_model w) states actions) in Hcol.
  unfold actor_loss, bind, call_actor, lift, torch_log, ret.
  rewrite Ecol, tmul_log_equal_length
    by (now rewrite Hcol, length_map, length_seq).
  rewrite <- Hcol. do 2 f_equal.
  assert (Hz : zip_with fmul (map flog col) adv
               = map (fun t => (flog (taken_prob (core_model w) states actions t)
                                * nth t adv fzero)%F)
                     (seq 0 (length actions))).
  { rewrite Hcol, map_map.
    etransitivity; [|apply (zip_with_map_map fmul)].
    f_equal. rewrite <- Hadv. apply list_as_table. }
  unfold policy_loss, tmean, numel, to_list.
  now rewrite Hz, length_map, length_seq.
Qed.


(** One iteration of the policy loop. *)
Lemma policy_iteration_run (states : list State) (actions : list Z)
    (adv : list F) (w0 w : world F State P G) :
  length adv = length actions ->
  (forall t, (t < length actions)%nat ->
     0 <= nth t actions 0
       < Z.of_nat (length (nth t (forward_actor (core_model w) states) []))) ->
  grad_enabled w = grad_enabled w0 -> np_random w = np_random w0 ->
  bind (actor_loss states actions (T1 adv))
       (fun l => bind (graph_of (actor_loss states actions (T1 adv)))
                      (fun g => model_step l g)) w
  = (Ok tt,
     {| core_model := policy_update states actions (T1 adv) w0 (core_model w);
        grad_enabled := grad_enabled w0;
        np_random := np_random w0;
        trace := trace w
                 ++ policy_iteration_events states actions adv w0 (core_model w) |}).
Proof.
  intros Hadv Hrange Hgr Hrng.
  rewrite (bind_ok _ _ _ (actor_loss_run states actions adv w Hadv Hrange)).
  unfold bind, graph_of, model_step, policy_update, policy_iteration_events,
    world_at, log_event, with_model.
  cbn [core_model grad_enabled np_random trace].
  now rewrite Hgr, Hrng, <- !app_assoc.
Qed.

(** The statements of [train] before the loops, on a model without
    trainable shared layers. *)
Lemma train_prologue (states : list State) (actions : list Z)
    (rewards : list F) (w : world F State P G) :
  let V := forward_critic (core_model w) states in
  let G_ := get_lambda_returns rewards V (reward_decay cfg) (lam cfg) (k cfg) in
  has_trainable_shared_layers (core_model w) = false ->
  length rewards = length V ->
  train critic_loss_func cfg states actions rewards w
  = bind (policy_model_training cfg states actions (T1 (zip_with fsub G_ V)))
         (fun _ => value_model_training critic_loss_func cfg states (T1 G_))
         (log_event (EForward CRITIC (core_model w) (grad_enabled w) states) w).
Proof.
  intros V G_ Hshared Hlen.
  unfold train, _get_values_and_bootstrapped_returns.
  unfold bind at 1. unfold bind at 1. unfold call_critic at 1.
  fold V. unfold ret at 1. cbn [fst snd].
  rewrite to_list_squeeze_col. fold G_.
  unfold bind at 1, lift at 1.
  rewrite tsub_equal_length
    by (unfold G_; now rewrite get_lambda_returns_length).
  unfold log_event at 1. cbn [core_model]. now rewrite Hshared.
Qed.


(** On well-shaped inputs and a model without trainable shared layers,
    [train] reaches the value loop after exactly the iterations of the
    policy loop. *)
Lemma train_policy_phase (states : list State) (actions : list Z)
    (rewards : list F) (w : world F State P G) :
  let m0 := core_model w in
  let V := forward_critic m0 states in
  let G_ := get_lambda_returns rewards V (reward_decay cfg) (lam cfg) (k cfg) in
  let adv := zip_with fsub G_ V in
  has_trainable_shared_layers m0 = false ->
  length actions = length states ->
  length rewards = length states ->
  length V = length states ->
  (forall m t, (t < length states)%nat ->
     0 <= nth t actions 0
       < Z.of_nat (length (nth t (forward_actor m states) []))) ->
  train critic_loss_func cfg states actions rewards w
  = value_model_training critic_loss_func cfg states (T1 G_)
      (after_iterations (policy_update states actions (T1 adv) w)
         (policy_iteration_events states actions adv w)
         (Z.to_nat (actor_train_iters cfg))
         (log_event (EForward CRITIC m0 (grad_enabled w) states) w)).
Proof.
  intros m0 V G_ adv Hshared Hact Hrew HV Hrange.
  assert (HG : length G_ = length rewards)
    by apply get_lambda_returns_length.
  assert (Hadv : length adv = length actions).
  { unfold adv. rewrite zip_with_length; congruence. }
  unfold m0. rewrite train_prologue by (fold m0 V; congruence).
  fold m0 V G_ adv.
  unfold policy_model_training, for_range.
  erewrite bind_ok; [reflexivity|].
  apply (repeat_M_run _ (policy_update states actions (T1 adv) w)
           (policy_iteration_events states actions adv w) w);
    try reflexivity.
  intros w' Hgr Hrng.
  apply policy_iteration_run; try assumption.
  intros t Ht. apply Hrange. congruence.
Qed.

(** X18.  On a model that reports no trainable shared layers,
    with states, actions and rewards of length [T] and actions that index
    the actor output, the policy update of [train] runs exactly
    [actor_train_iters] iterations (none for a negative count).  Iteration
    [i] evaluates the actor head on all the states under the model [m_i]
    left by iteration [i - 1] ([m_0] is the model at the call), takes the
    logarithm of the probabilities that evaluation gives to the actions
    taken, forms the loss [- mean_t (log(prob_t) * advantage_t)] and makes
    one step, which yields [m_(i+1)]; then the value update starts. *)
Theorem policy_update_iterations (states : list State) (actions : list Z)
    (rewards : list F) (w : world F State P G) :
  let m0 := core_model w in
  let V := forward_critic m0 states in
  let G_ := get_lambda_returns rewards V (reward_decay cfg) (lam cfg) (k cfg) in
  let adv := zip_with fsub G_ V in
  let n := Z.to_nat (actor_train_iters cfg) in
  let update := policy_update states actions (T1 adv) w in
  let events := policy_iteration_events states actions adv w in
  has_trainable_shared_layers m0 = false ->
  length actions = length states ->
  length rewards = length states ->
  length V = length states ->
  (forall m t, (t < length states)%nat ->
     0 <= nth t actions 0
       < Z.of_nat (length (nth t (forward_actor m states) []))) ->
  train critic_loss_func cfg states actions rewards w
  = value_model_training critic_loss_func cfg states (T1 G_)
      (after_iterations update events n
         (log_event (EForward CRITIC m0 (grad_enabled w) states) w))
  /\ length (iterates update n m0) = n
  /\ length (filter (@is_step F State P) (flat_map events (iterates update n m0)))
     = n.
Proof.
  intros m0 V G_ adv n update events Hshared Hact Hrew HV Hrange.
  split; [now apply train_policy_phase|]. split.
  - clear. generalize m0. induction n as [|n' IH]; intros m; simpl;
      [reflexivity | now rewrite IH].
  - now apply after_iterations_steps.
Qed.


End TrainFacts.

(** *** The value loop *)

Section ValueLoop.
Context {F : Type} {SF : Scalar F} {LF : Logarithm F}.
Context {State P G : Type} {MTL : MultiTaskLearningModel F State P}.
Variable cfg : ActorCriticConfig F.

(** One iteration of the value loop on an object whose attribute has been
    set to a loss function [f], when [f] returns. *)
Lemma value_iteration_run (f : tensor F -> tensor F -> result F)
    (states : list State) (return_est : tensor F)
    (loss : Model P -> F) (w0 w : world F State P G) :
  f (squeeze_col (forward_critic (core_model w) states)) return_est
  = Ok (loss (core_model w)) ->
  grad_enabled w = grad_enabled w0 -> np_random w = np_random w0 ->
  bind (critic_loss (Some f) states return_est)
       (fun l => bind (graph_of (critic_loss (Some f) states return_est))
                      (fun g => model_step l g)) w
  = (Ok tt,
     {| core_model := value_update (Some f) states return_est w0 (core_model w);
        grad_enabled := grad_enabled w0;
        np_random := np_random w0;
        trace := trace w
                 ++ value_iteration_events states return_est loss w0
                      (core_model w) |}).
Proof.
  intros Hloss Hgr Hrng.
  unfold bind at 1. unfold critic_loss at 1.
  unfold bind at 1. unfold get_critic_loss_func at 1, lift at 1.
  unfold bind at 1. unfold call_critic at 1, call_critic_loss_func at 1.
  rewrite Hloss.
  unfold bind, graph_of, model_step, value_update, value_iteration_events,
    world_at, log_event, with_model.
  cbn [core_model grad_enabled np_random trace].
  now rewrite Hgr, Hrng, <- !app_assoc.
Qed.

(** On an object whose attribute has been set from outside to a loss
    function [f] that returns, and a model that reports no trainable
    shared layers, the value loop runs exactly [critic_train_iters]
    iterations (none for a negative count), starting from the model the
    policy loop left.  Each iteration evaluates the critic head under the
    current model, hands that prediction and the return targets to [f] and
    makes one step; the targets are the ones computed once, before both
    loops. *)
Lemma value_update_iterations (f : tensor F -> tensor F -> result F)
    (states : list State) (actions : list Z)
    (rewards : list F) (loss : Model P -> F) (w : world F State P G) :
  let m0 := core_model w in
  let V := forward_critic m0 states in
  let G_ := get_lambda_returns rewards V (reward_decay cfg) (lam cfg) (k cfg) in
  let adv := zip_with fsub G_ V in
  let w_policy :=
    after_iterations (policy_update states actions (T1 adv) w)
      (policy_iteration_events states actions adv w)
      (Z.to_nat (actor_train_iters cfg))
      (log_event (EForward CRITIC m0 (grad_enabled w) states) w) in
  let c := Z.to_nat (critic_train_iters cfg) in
  let update := value_update (Some f) states (T1 G_) w in
  let events := value_iteration_events states (T1 G_) loss w in
  has_trainable_shared_layers m0 = false ->
  length actions = length states ->
  length rewards = length states ->
  length V = length states ->
  (forall m t, (t < length states)%nat ->
     0 <= nth t actions 0
       < Z.of_nat (length (nth t (forward_actor m states) []))) ->
  (forall m, f (squeeze_col (forward_critic m states)) (T1 G_)
             = Ok (loss m)) ->
  train (Some f) cfg states actions rewards w
  = (Ok tt, after_iterations update events c w_policy)
  /\ length (iterates update c (core_model w_policy)) = c
  /\ length (filter (@is_step F State P)
               (flat_map events (iterates update c (core_model w_policy))))
     = c.
Proof.
  intros m0 V G_ adv w_policy c update events Hshared Hact Hrew HV Hrange Hloss.
  split; [|split].
  - unfold m0. rewrite train_policy_phase by assumption.
    fold m0 V G_ adv w_policy.
    unfold value_model_training, for_range.
    apply (repeat_M_run _ update events w); try reflexivity.
    intros w' Hgr Hrng.
    apply value_iteration_run; [apply Hloss | assumption | assumption].
  - clear. generalize (core_model w_policy). induction c as [|c' IH];
      intros m; simpl; [reflexivity | now rewrite IH].
  - now apply after_iterations_steps.
Qed.

(** C3.  On the object as [ActorCritic.__init__] leaves it, a model that
    reports no trainable shared layers and well-shaped inputs, a positive
    [critic_train_iters] makes [train] raise [AttributeError]: the policy
    loop runs, and the first iteration of the value loop fails when it
    reads [self._critic_loss_func], before the critic head is evaluated.
    No step of the value update is made: the world is the one the policy
    loop left. *)
Theorem value_update_raises_attribute_error (states : list State)
    (actions : list Z) (rewards : list F) (w : world F State P G) :
  let m0 := core_model w in
  let V := forward_critic m0 states in
  let G_ := get_lambda_returns rewards V (reward_decay cfg) (lam cfg) (k cfg) in
  let adv := zip_with fsub G_ V in
  let w_policy :=
    after_iterations (policy_update states actions (T1 adv) w)
      (policy_iteration_events states actions adv w)
      (Z.to_nat (actor_train_iters cfg))
      (log_event (EForward CRITIC m0 (grad_enabled w) states) w) in
  has_trainable_shared_layers m0 = false ->
  length actions = length states ->
  length rewards = length states ->
  length V = length states ->
  (forall m t, (t < length states)%nat ->
     0 <= nth t actions 0
       < Z.of_nat (length (nth t (forward_actor m states) []))) ->
  0 < critic_train_iters cfg ->
  train None cfg states actions rewards w = (Raise AttributeError, w_policy).
Proof.
  intros m0 V G_ adv w_policy Hshared Hact Hrew HV Hrange Hiters.
  unfold m0. rewrite train_policy_phase by assumption.
  fold m0 V G_ adv w_policy.
  unfold value_model_training, for_range.
  destruct (Z.to_nat (critic_train_iters cfg)) as [|n] eqn:En; [lia|].
  reflexivity.
Qed.

End ValueLoop.

(** C2.  A model that reports trainable shared layers, with
    [actor_train_iters = 2]: [train] evaluates the critic head and
    returns; the policy loop is not entered and no step is made. *)
Theorem policy_update_shared_layers_no_step :
  actor_train_iters (Concrete.config 2 0) = 2
  /\ has_trainable_shared_layers
       (MultiTaskLearningModel := Concrete.two_heads true)
       (core_model (Concrete.initial 0 true [])) = true
  /\ train (MTL := Concrete.two_heads true) None
       (Concrete.config 2 0) [0; 1; 2] [0; 1; 0] [1; 0; 2]
       (Concrete.initial 0 true [])
     = (Ok tt,
        {| core_model := {| parameters := 0; training := true |};
           grad_enabled := true;
           np_random := [];
           trace := [EForward CRITIC {| parameters := 0; training := true |}
                       true [0; 1; 2]] |})
  /\ filter (@is_step Z Z Z)
       (trace (snd (train (MTL := Concrete.two_heads true) None
                      (Concrete.config 2 0) [0; 1; 2] [0; 1; 0] [1; 0; 2]
                      (Concrete.initial 0 true []))))
     = [].
Proof. repeat split. Qed.


Lemma concrete_actions_in_range (actions : list Z) :
  forallb (fun a => (0 <=? a) && (a <? 2)) actions = true ->
  forall (m : Model Z) (states : list Z) (t : nat),
    length actions = length states ->
    (t < length states)%nat ->
    0 <= nth t actions 0
      < Z.of_nat (length (nth t (forward_actor
                                   (MultiTaskLearningModel := Concrete.two_heads false)
                                   m states) [])).
Proof.
  intros Hall m states. revert actions Hall.
  induction states as [|x states IH]; intros [|a actions] Hall t Hlen Ht;
    simpl in *; try lia; try discriminate.
  apply andb_true_iff in Hall as [Ha Hall].
  destruct t as [|t].
  - unfold Concrete.policy_row. destruct (Z.even _); simpl; lia.
  - apply IH; [assumption | lia | lia].
Qed.

Lemma policy_update_iterations_witness :
  train (MTL := Concrete.two_heads false) None
    (Concrete.config 2 1) [0; 1; 2] [0; 1; 0] [1; 0; 2]
    (Concrete.initial 0 true [])
  = value_model_training (MTL := Concrete.two_heads false)
      None (Concrete.config 2 1) [0; 1; 2] (T1 [9; 4; 2])
      {| core_model := {| parameters := 0; training := true |};
         grad_enabled := true;
         np_random := [];
         trace :=
           [EForward CRITIC {| parameters := 0; training := true |} true [0; 1; 2];
            EForward ACTOR {| parameters := 0; training := true |} true [0; 1; 2];
            ELog (T1 [1; 1; 1]);
            EStep {| parameters := 0; training := true |} 0;
            EForward ACTOR {| parameters := 0; training := true |} true [0; 1; 2];
            ELog (T1 [1; 1; 1]);
            EStep {| parameters := 0; training := true |} 0] |}.
Proof.
  rewrite (proj1 (policy_update_iterations (MTL := Concrete.two_heads false)
                    None (Concrete.config 2 1)
                    [0; 1; 2] [0; 1; 0] [1; 0; 2] (Concrete.initial 0 true [])
                    eq_refl eq_refl eq_refl eq_refl
                    (fun m t => @concrete_actions_in_range [0; 1; 0] eq_refl
                                  m [0; 1; 2] t eq_refl))).
  reflexivity.
Defined.

(** With the attribute set to the sum of squared errors, the same call
    makes one policy step and two value steps. *)
Example value_update_with_squared_error :
  train (MTL := Concrete.two_heads false) (Some Concrete.squared_error)
    (Concrete.config 1 2) [0; 1; 2] [0; 1; 0] [1; 0; 2]
    (Concrete.initial 0 true [])
  = (Ok tt,
     {| core_model := {| parameters := -52823; training := true |};
        grad_enabled := true;
        np_random := [];
        trace :=
          [EForward CRITIC {| parameters := 0; training := true |} true [0; 1; 2];
           EForward ACTOR {| parameters := 0; training := true |} true [0; 1; 2];
           ELog (T1 [1; 1; 1]);
           EStep {| parameters := 0; training := true |} 0;
           EForward CRITIC {| parameters := 0; training := true |} true [0; 1; 2];
           ECriticLoss (T1 [0; 0; 0]) (T1 [9; 4; 2]);
           EStep {| parameters := 0; training := true |} 101;
           EForward CRITIC {| parameters := -101; training := true |} true
             [0; 1; 2];
           ECriticLoss (T1 [0; -101; -202]) (T1 [9; 4; 2]);
           EStep {| parameters := -101; training := true |} 52722] |}).
Proof.
  assert (Hloss : forall m : Model Z,
            Concrete.squared_error
              (squeeze_col (forward_critic
                              (MultiTaskLearningModel := Concrete.two_heads false)
                              m [0; 1; 2]))
              (T1 (get_lambda_returns [1; 0; 2]
                     (forward_critic
                        (MultiTaskLearningModel := Concrete.two_heads false)
                        (core_model (Concrete.initial 0 true [])) [0; 1; 2])
                     (reward_decay (Concrete.config 1 2))
                     (lam (Concrete.config 1 2)) (k (Concrete.config 1 2))))
            = Ok (Concrete.squared_loss [0; 1; 2] (T1 [9; 4; 2]) m))
    by (intros m; reflexivity).
  rewrite (proj1 (value_update_iterations (MTL := Concrete.two_heads false)
                    (Concrete.config 1 2) Concrete.squared_error
                    [0; 1; 2] [0; 1; 0] [1; 0; 2]
                    (Concrete.squared_loss [0; 1; 2] (T1 [9; 4; 2]))
                    (Concrete.initial 0 true [])
                    eq_refl eq_refl eq_refl eq_refl
                    (fun m t => @concrete_actions_in_range [0; 1; 0] eq_refl
                                  m [0; 1; 2] t eq_refl)
                    Hloss)).
  reflexivity.
Qed.

Lemma value_update_raises_attribute_error_witness :
  train (MTL := Concrete.two_heads false) None
    (Concrete.config 1 2) [0; 1; 2] [0; 1; 0] [1; 0; 2]
    (Concrete.initial 0 true [])
  = (Raise AttributeError,
     {| core_model := {| parameters := 0; training := true |};
        grad_enabled := true;
        np_random := [];
        trace :=
          [EForward CRITIC {| parameters := 0; training := true |} true [0; 1; 2];
           EForward ACTOR {| parameters := 0; training := true |} true [0; 1; 2];
           ELog (T1 [1; 1; 1]);
           EStep {| parameters := 0; training := true |} 0] |}).
Proof.
  rewrite (value_update_raises_attribute_error
             (MTL := Concrete.two_heads false) (Concrete.config 1 2)
             [0; 1; 2] [0; 1; 0] [1; 0; 2] (Concrete.initial 0 true [])
             eq_refl eq_refl eq_refl eq_refl
             (fun m t => @concrete_actions_in_range [0; 1; 0] eq_refl
                           m [0; 1; 2] t eq_refl)
             eq_refl).
  reflexivity.
Defined.


(** ** More on [train] and [choose_action] *)

Section AmbientFacts.
Context {F : Type} {SF : Scalar F} {LF : Logarithm F}.
Context {State P G : Type} {MTL : MultiTaskLearningModel F State P}.
Variable critic_loss_func : option (tensor F -> tensor F -> result F).
Variable cfg : ActorCriticConfig F.

Lemma keeps_ambient_ret {A} (a : A) : keeps_ambient (ret (G := G) (State := State) (P := P) (F := F) a).
Proof. intros w. simpl. repeat split. exists []. now rewrite app_nil_r. Qed.

Lemma keeps_ambient_lift {A} (r : result A) :
  keeps_ambient (lift (G := G) (State := State) (P := P) (F := F) r).
Proof. intros w. simpl. repeat split. exists []. now rewrite app_nil_r. Qed.

Lemma keeps_ambient_bind {A B} (c : M F State P G A) (f : A -> M F State P G B) :
  keeps_ambient c -> (forall a, keeps_ambient (f a)) -> keeps_ambient (bind c f).
Proof.
  intros Hc Hf w. unfold bind.
  destruct (Hc w) as (Hgr & Hrng & evs & Htr).
  destruct (c w) as [[a|e] w1]; simpl in *.
  - destruct (Hf a w1) as (Hgr' & Hrng' & evs' & Htr').
    repeat split; [congruence | congruence |].
    exists (evs ++ evs'). now rewrite Htr', Htr, app_assoc.
  - repeat split; try assumption. now exists evs.
Qed.

Lemma keeps_ambient_call_actor (x : list State) : keeps_ambient (call_actor (G := G) x).
Proof. intros w. simpl. repeat split. now eexists. Qed.

Lemma keeps_ambient_call_critic (x : list State) : keeps_ambient (call_critic (G := G) x).
Proof. intros w. simpl. repeat split. now eexists. Qed.

Lemma keeps_ambient_torch_log (x : tensor F) :
  keeps_ambient (torch_log (State := State) (P := P) (G := G) x).
Proof. intros w. simpl. repeat split. now eexists. Qed.

Lemma keeps_ambient_model_step (l : F) (g : loss_graph F P) :
  keeps_ambient (model_step (State := State) (G := G) l g).
Proof. intros w. simpl. repeat split. now eexists. Qed.

Lemma keeps_ambient_graph_of (c : M F State P G F) : keeps_ambient (graph_of c).
Proof. intros w. simpl. repeat split. exists []. now rewrite app_nil_r. Qed.

Lemma keeps_ambient_repeat_M (n : nat) (body : M F State P G unit) :
  keeps_ambient body -> keeps_ambient (repeat_M n body).
Proof.
  intros Hb. induction n as [|n IH]; simpl.
  - apply keeps_ambient_ret.
  - apply keeps_ambient_bind; [assumption | intros _; assumption].
Qed.

Lemma keeps_ambient_actor_loss (states : list State) (actions : list Z)
    (advantages : tensor F) :
  keeps_ambient (actor_loss (G := G) states actions advantages).
Proof.
  unfold actor_loss.
  repeat (apply keeps_ambient_bind; [|intros ?]);
    auto using keeps_ambient_call_actor, keeps_ambient_lift,
      keeps_ambient_torch_log, keeps_ambient_ret.
Qed.

Lemma keeps_ambient_critic_loss (states : list State) (return_est : tensor F) :
  keeps_ambient (critic_loss (G := G) critic_loss_func states return_est).
Proof.
  unfold critic_loss, get_critic_loss_func.
  apply keeps_ambient_bind; [apply keeps_ambient_lift | intros f].
  apply keeps_ambient_bind; [apply keeps_ambient_call_critic | intros out w].
  unfold call_critic_loss_func. simpl. repeat split. now eexists.
Qed.

Lemma keeps_ambient_loops (states : list State) (actions : list Z)
    (advantages return_est : tensor F) :
  keeps_ambient
    (bind (policy_model_training (G := G) cfg states actions advantages)
          (fun _ => value_model_training critic_loss_func cfg states return_est)).
Proof.
  apply keeps_ambient_bind; [|intros _];
    unfold policy_model_training, value_model_training, for_range;
    apply keeps_ambient_repeat_M.
  - apply keeps_ambient_bind; [apply keeps_ambient_actor_loss|intros l].
    apply keeps_ambient_bind; [apply keeps_ambient_graph_of|intros g].
    apply keeps_ambient_model_step.
  - apply keeps_ambient_bind; [apply keeps_ambient_critic_loss|intros l].
    apply keeps_ambient_bind; [apply keeps_ambient_graph_of|intros g].
    apply keeps_ambient_model_step.
Qed.

(** What [train] does after the first critic evaluation, from the world
    that evaluation leaves. *)
Lemma train_after_values (states : list State) (actions : list Z)
    (rewards : list F) (w : world F State P G) :
  let V := forward_critic (core_model w) states in
  let G_ := get_lambda_returns rewards V (reward_decay cfg) (lam cfg) (k cfg) in
  let w1 := log_event (EForward CRITIC (core_model w) (grad_enabled w) states) w in
  train critic_loss_func cfg states actions rewards w
  = match tsub (T1 G_) (squeeze_col V) with
    | Raise e => (Raise e, w1)
    | Ok advantages =>
        if has_trainable_shared_layers (core_model w) then (Ok tt, w1)
        else bind (policy_model_training cfg states actions advantages)
                  (fun _ => value_model_training critic_loss_func cfg states
                              (T1 G_)) w1
    end.
Proof.
  intros V G_ w1.
  unfold train, _get_values_and_bootstrapped_returns.
  unfold bind at 1. unfold bind at 1. unfold call_critic at 1.
  fold V. unfold ret at 1. cbn [fst snd].
  rewrite to_list_squeeze_col. fold G_.
  unfold bind at 1, lift at 1. fold w1.
  destruct (tsub (T1 G_) (squeeze_col V)); reflexivity.
Qed.

(** C8.  In [train], when the return targets [G_] and the value
    estimates [V] have one length [T], the advantages handed to the
    policy loop are a vector [A] of length [T] with [A[t] = G_[t] - V[t]]
    at every index.  Computing them has no effect of its own: the loops
    (or the return, on a model with trainable shared layers) start from
    the world as the critic evaluation left it, with the targets [G_]
    unchanged for the value loop. *)
Theorem advantage_elementwise (states : list State) (actions : list Z)
    (rewards : list F) (w : world F State P G) :
  let V := forward_critic (core_model w) states in
  let G_ := get_lambda_returns rewards V (reward_decay cfg) (lam cfg) (k cfg) in
  let w1 := log_event (EForward CRITIC (core_model w) (grad_enabled w) states) w in
  length G_ = length V ->
  exists A : list F,
    length A = length G_
    /\ (forall t, (t < length G_)%nat ->
          nth t A fzero = (nth t G_ fzero - nth t V fzero)%F)
    /\ train critic_loss_func cfg states actions rewards w
       = if has_trainable_shared_layers (core_model w) then (Ok tt, w1)
         else bind (policy_model_training cfg states actions (T1 A))
                   (fun _ => value_model_training critic_loss_func cfg states
                               (T1 G_)) w1.
Proof.
  intros V G_ w1 E. exists (zip_with fsub G_ V).
  split; [now apply zip_with_length|].
  split; [intros t Ht; now apply zip_with_nth|].
  rewrite train_after_values. fold V G_ w1.
  now rewrite tsub_equal_length.
Qed.

(** Whatever [train] does comes after one evaluation of the critic head. *)
Lemma train_starts_with_critic (states : list State) (actions : list Z)
    (rewards : list F) (w : world F State P G) :
  exists rest,
    trace (snd (train critic_loss_func cfg states actions rewards w))
    = trace w ++ EForward CRITIC (core_model w) (grad_enabled w) states :: rest.
Proof.
  rewrite train_after_values.
  destruct (tsub _ _) as [adv|e]; [|now exists []].
  destruct (has_trainable_shared_layers (core_model w)); [now exists []|].
  destruct (keeps_ambient_loops states actions adv
              (T1 (get_lambda_returns rewards
                     (forward_critic (core_model w) states)
                     (reward_decay cfg) (lam cfg) (k cfg)))
              (log_event (EForward CRITIC (core_model w) (grad_enabled w) states) w))
    as (_ & _ & evs & Htr).
  exists evs. rewrite Htr. simpl. now rewrite <- app_assoc.
Qed.

(** X1.  [train] never draws from NumPy's random source and leaves the gradient
    switch as it found it, and whatever it does comes after one evaluation
    of the critic head on the model as it is at the call; this holds for
    every input, also when the call raises. *)
Theorem train_keeps_ambient (states : list State) (actions : list Z)
    (rewards : list F) (w : world F State P G) :
  let run := train critic_loss_func cfg states actions rewards w in
  grad_enabled (snd run) = grad_enabled w
  /\ np_random (snd run) = np_random w
  /\ exists rest,
       trace (snd run)
       = trace w
         ++ EForward CRITIC (core_model w) (grad_enabled w) states :: rest.
Proof.
  intros run. subst run.
  split; [|split; [|apply train_starts_with_critic]];
    rewrite train_after_values;
    (destruct (tsub _ _) as [adv|e]; [|reflexivity]);
    (destruct (has_trainable_shared_layers (core_model w)); [reflexivity|]);
    destruct (keeps_ambient_loops states actions adv
                (T1 (get_lambda_returns rewards
                       (forward_critic (core_model w) states)
                       (reward_decay cfg) (lam cfg) (k cfg)))
                (log_event (EForward CRITIC (core_model w) (grad_enabled w)
                              states) w))
      as (Hgr & Hrng & _); assumption.
Qed.

(** X2.  On a model that reports trainable shared layers [train] evaluates the
    critic head once and does nothing else: the model is left as it was
    and no step is made, whether the subtraction of the values succeeds or
    raises. *)
Theorem train_shared_layers_no_update (states : list State) (actions : list Z)
    (rewards : list F) (w : world F State P G) :
  has_trainable_shared_layers (core_model w) = true ->
  snd (train critic_loss_func cfg states actions rewards w)
  = log_event (EForward CRITIC (core_model w) (grad_enabled w) states) w
  /\ (fst (train critic_loss_func cfg states actions rewards w) = Ok tt
      \/ fst (train critic_loss_func cfg states actions rewards w)
         = Raise RuntimeError).
Proof.
  intros Hshared. rewrite train_after_values, Hshared.
  destruct (tsub _ _) as [adv|e] eqn:E; simpl; [now split; [|left]|].
  split; [reflexivity|]. right. f_equal.
  unfold tsub, broadcast in E.
  destruct (squeeze_col _); [discriminate|].
  destruct (Nat.eqb _ _); [discriminate|].
  destruct (get_lambda_returns _ _ _ _ _) as [|? [|? ?]];
    destruct xs as [|? [|? ?]]; simpl in E; congruence.
Qed.

(** X3.  Iteration counts that are zero or negative make both loops empty:
    [train] then leaves the model as it was, makes no step and returns,
    provided the subtraction of the values succeeds. *)
Theorem train_without_iterations (states : list State) (actions : list Z)
    (rewards : list F) (w : world F State P G) (advantages : tensor F) :
  let V := forward_critic (core_model w) states in
  let G_ := get_lambda_returns rewards V (reward_decay cfg) (lam cfg) (k cfg) in
  tsub (T1 G_) (squeeze_col V) = Ok advantages ->
  actor_train_iters cfg <= 0 ->
  critic_train_iters cfg <= 0 ->
  train critic_loss_func cfg states actions rewards w
  = (Ok tt, log_event (EForward CRITIC (core_model w) (grad_enabled w) states) w).
Proof.
  intros V G_ Hsub Ha Hc. rewrite train_after_values. fold V G_. rewrite Hsub.
  destruct (has_trainable_shared_layers (core_model w)); [reflexivity|].
  unfold policy_model_training, value_model_training, for_range.
  replace (Z.to_nat (actor_train_iters cfg)) with 0%nat by lia.
  replace (Z.to_nat (critic_train_iters cfg)) with 0%nat by lia.
  reflexivity.
Qed.

Lemma gather1_out_of_range (rows : list (list F)) (index : list Z) (t : nat) :
  (t < length index)%nat ->
  ~ (0 <= nth t index 0 < Z.of_nat (length (nth t rows []))) ->
  gather1 rows index = Raise RuntimeError.
Proof.
  revert rows t. induction index as [|i index IH]; intros rows t Ht Hbad;
    simpl in Ht; [lia|].
  destruct rows as [|row rows]; [reflexivity|]. simpl.
  destruct ((0 <=? i) && (i <? Z.of_nat (length row))) eqn:E; [|reflexivity].
  destruct t as [|t].
  - exfalso. apply Hbad. simpl.
    apply andb_true_iff in E as [E1 E2].
    apply Z.leb_le in E1. apply Z.ltb_lt in E2. lia.
  - rewrite (IH rows t); [reflexivity | lia | exact Hbad].
Qed.

(** X4.  An action that does not index the row the actor head returns for its
    step (or that has no such row) stops [train] in the first policy
    iteration: the call raises [RuntimeError] after the actor evaluation,
    no step is made and the model is left as it was. *)
Theorem train_rejects_action_out_of_range (states : list State)
    (actions : list Z) (rewards : list F) (w : world F State P G)
    (advantages : tensor F) (t : nat) :
  let m0 := core_model w in
  let V := forward_critic m0 states in
  let G_ := get_lambda_returns rewards V (reward_decay cfg) (lam cfg) (k cfg) in
  has_trainable_shared_layers m0 = false ->
  0 < actor_train_iters cfg ->
  tsub (T1 G_) (squeeze_col V) = Ok advantages ->
  (t < length actions)%nat ->
  ~ (0 <= nth t actions 0
       < Z.of_nat (length (nth t (forward_actor m0 states) []))) ->
  train critic_loss_func cfg states actions rewards w
  = (Raise RuntimeError,
     log_event (EForward ACTOR m0 (grad_enabled w) states)
       (log_event (EForward CRITIC m0 (grad_enabled w) states) w)).
Proof.
  intros m0 V G_ Hshared Hiters Hsub Ht Hbad.
  rewrite train_after_values. fold m0 V G_. rewrite Hsub, Hshared.
  unfold policy_model_training, for_range.
  destruct (Z.to_nat (actor_train_iters cfg)) as [|n] eqn:En; [lia|].
  simpl repeat_M.
  unfold bind at 1. unfold bind at 1. unfold bind at 1.
  unfold actor_loss at 1. unfold bind at 1. unfold bind at 1.
  unfold call_actor at 1, lift at 1. cbn [core_model log_event].
  fold m0. now rewrite (gather1_out_of_range _ _ Ht Hbad).
Qed.

End AmbientFacts.

Section ChooseActionMore.
Context {F : Type} {SF : Scalar F} {LF : Logarithm F}.
Context {State P G : Type} {RS : RandomState F G}.
Context {MTL : MultiTaskLearningModel F State P}.
Variable critic_loss_func : option (tensor F -> tensor F -> result F).
Variable atol : F.
Variable cfg : ActorCriticConfig F.

Lemma searchsorted_right_le (cdf : list F) (u : F) :
  (searchsorted_right cdf u <= length cdf)%nat.
Proof.
  induction cdf as [|c cdf IH]; simpl; [lia|].
  destruct (fltb u c); lia.
Qed.

(** A draw below the last entry is placed before the end. *)
Lemma searchsorted_right_lt (cdf : list F) (u : F) :
  cdf <> [] -> fltb u (last cdf fzero) = true ->
  (searchsorted_right cdf u < length cdf)%nat.
Proof.
  induction cdf as [|c cdf IH]; intros Hne Hlast; [congruence|].
  simpl. destruct (fltb u c) eqn:E; [lia|].
  destruct cdf as [|c' cdf].
  - simpl in Hlast. congruence.
  - apply -> Nat.succ_lt_mono. apply IH; [discriminate | exact Hlast].
Qed.

(** X5.  [choose_action] returns an action only for a distribution NumPy
    accepts: a vector with one entry per action, none of them negative,
    whose sum is within the tolerance of 1.  The action is then an index
    from 0 up to [num_actions], and below [num_actions] when the uniform
    draw is below the last entry of the normalised cumulative sum. *)
Theorem choose_action_returns_only_valid (state : State)
    (epsilon : option F) (w : world F State P G) (a : Z) :
  fst (choose_action atol cfg state epsilon w) = Ok a ->
  exists xs : list F,
    action_dist w state = A1 xs
    /\ Z.of_nat (length xs) = num_actions cfg
    /\ has_negative xs = false
    /\ sum_off atol xs = false
    /\ 0 <= a <= num_actions cfg
    /\ (fltb (fst (random_sample (np_random w)))
             (last (map (fun c => (c / last (cumsum xs) fzero)%F) (cumsum xs))
                   fzero) = true ->
        a < num_actions cfg).
Proof.
  rewrite choose_action_run. cbn [fst]. unfold np_random_choice.
  destruct (num_actions cfg <=? 0) eqn:Ea; [discriminate|].
  apply Z.leb_gt in Ea.
  destruct (action_dist w state) as [x|xs|rows]; try discriminate.
  destruct (Z.of_nat (length xs) =? num_actions cfg) eqn:El;
    [|discriminate].
  apply Z.eqb_eq in El. cbn [negb].
  destruct (has_negative xs) eqn:Hneg; [discriminate|].
  destruct (sum_off atol xs) eqn:Hsum; [discriminate|].
  destruct (random_sample (np_random w)) as [u g]. cbn [fst].
  intros E. injection E as <-.
  exists xs. repeat split; try reflexivity; try assumption; try lia.
  - pose proof (searchsorted_right_le
                  (map (fun c => (c / last (cumsum xs) fzero)%F) (cumsum xs)) u)
      as H.
    rewrite length_map, cumsum_length in H. lia.
  - intros Hu.
    pose proof (@searchsorted_right_lt
                  (map (fun c => (c / last (cumsum xs) fzero)%F) (cumsum xs)) u)
      as H.
    rewrite length_map, cumsum_length in H.
    assert (Hne : map (fun c => (c / last (cumsum xs) fzero)%F) (cumsum xs)
                  <> []).
    { destruct xs; simpl in *; [lia | discriminate]. }
    specialize (H Hne Hu). lia.
Qed.

(** X6.  With a single action the squeezed actor output has rank 0, which
    NumPy does not take for a probability vector: [choose_action] raises
    whatever the probability is and returns no action, and it still
    leaves the model in evaluation mode. *)
Theorem choose_action_single_action_raises (state : State)
    (epsilon : option F) (w : world F State P G) (x : F) :
  forward_actor (eval (core_model w)) [state] = [[x]] ->
  (fst (choose_action atol cfg state epsilon w) = Raise TypeError
   \/ fst (choose_action atol cfg state epsilon w) = Raise ValueError)
  /\ core_model (snd (choose_action atol cfg state epsilon w))
     = eval (core_model w).
Proof.
  intros Hrow. rewrite choose_action_run. cbn [fst snd core_model].
  unfold action_dist. rewrite Hrow. unfold np_random_choice. simpl.
  destruct (num_actions cfg <=? 0); split; auto.
Qed.

(** X7.  Nothing puts the model back into training mode between
    [choose_action] and [train]: called after [choose_action], [train]
    starts by evaluating the critic head on the model in evaluation mode,
    with the parameters [choose_action] found. *)
Theorem train_after_choose_action_in_eval_mode (state : State)
    (epsilon : option F) (states : list State) (actions : list Z)
    (rewards : list F) (w : world F State P G) :
  let w1 := snd (choose_action atol cfg state epsilon w) in
  exists rest,
    trace (snd (train critic_loss_func cfg states actions rewards w1))
    = trace w
      ++ EForward ACTOR (eval (core_model w)) false [state]
      :: EForward CRITIC
           {| parameters := parameters (core_model w); training := false |}
           (grad_enabled w) states
      :: rest.
Proof.
  intros w1.
  destruct (train_starts_with_critic critic_loss_func cfg states actions
              rewards w1) as (rest & Htr).
  exists rest. rewrite Htr. unfold w1. rewrite choose_action_run.
  cbn [snd trace core_model grad_enabled]. now rewrite <- app_assoc.
Qed.

End ChooseActionMore.

Lemma advantage_elementwise_witness :
  exists A : list Z,
    length A = length [9; 4; 2]
    /\ (forall t, (t < length [9; 4; 2])%nat ->
          nth t A fzero = (nth t [9; 4; 2] fzero - nth t [0; 3; 6] fzero)%F)
    /\ train (MTL := Concrete.two_heads false) None
         (Concrete.config 1 0) [0; 1; 2] [0; 1; 0] [1; 0; 2]
         (Concrete.initial 3 true [])
       = if has_trainable_shared_layers
              (MultiTaskLearningModel := Concrete.two_heads false)
              (core_model (Concrete.initial 3 true []))
         then (Ok tt,
               log_event (EForward CRITIC (core_model (Concrete.initial 3 true []))
                            true [0; 1; 2])
                 (Concrete.initial 3 true []))
         else bind (policy_model_training (MTL := Concrete.two_heads false)
                      (Concrete.config 1 0) [0; 1; 2] [0; 1; 0] (T1 A))
                   (fun _ => value_model_training
                               (MTL := Concrete.two_heads false) None
                               (Concrete.config 1 0) [0; 1; 2] (T1 [9; 4; 2]))
                   (log_event
                      (EForward CRITIC (core_model (Concrete.initial 3 true []))
                         true [0; 1; 2])
                      (Concrete.initial 3 true [])).
Proof.
  exact (advantage_elementwise (MTL := Concrete.two_heads false) None
           (Concrete.config 1 0) [0; 1; 2] [0; 1; 0] [1; 0; 2]
           (Concrete.initial 3 true []) eq_refl).
Defined.

(** In that run the advantages are [9 - 0], [4 - 3] and [2 - 6], and the
    one policy step is made with the loss they give. *)
Example advantage_sample :
  tsub (T1 [9; 4; 2]) (squeeze_col [0; 3; 6]) = Ok (T1 [9; 1; -4]).
Proof. reflexivity. Qed.

Lemma train_shared_layers_no_update_witness :
  snd (train (MTL := Concrete.two_heads true) None
         (Concrete.config 3 3) [0; 1] [0; 1] [5; 6; 7]
         (Concrete.initial 4 true []))
  = log_event (EForward CRITIC (core_model (Concrete.initial 4 true []))
                 (grad_enabled (Concrete.initial 4 true [])) [0; 1])
      (Concrete.initial 4 true [])
  /\ (fst (train (MTL := Concrete.two_heads true) None
             (Concrete.config 3 3) [0; 1] [0; 1] [5; 6; 7]
             (Concrete.initial 4 true []))
      = Ok tt
      \/ fst (train (MTL := Concrete.two_heads true) None
                (Concrete.config 3 3) [0; 1] [0; 1] [5; 6; 7]
                (Concrete.initial 4 true []))
         = Raise RuntimeError).
Proof.
  apply (train_shared_layers_no_update (MTL := Concrete.two_heads true)
           None (Concrete.config 3 3)
           [0; 1] [0; 1] [5; 6; 7] (Concrete.initial 4 true [])).
  reflexivity.
Defined.

Lemma train_without_iterations_witness :
  train (MTL := Concrete.two_heads false) None
    (Concrete.config (-2) 0) [0; 1; 2] [0; 1; 0] [1; 0; 2]
    (Concrete.initial 4 true [])
  = (Ok tt,
     log_event (EForward CRITIC (core_model (Concrete.initial 4 true []))
                  (grad_enabled (Concrete.initial 4 true [])) [0; 1; 2])
       (Concrete.initial 4 true [])).
Proof.
  apply (train_without_iterations (MTL := Concrete.two_heads false)
           None (Concrete.config (-2) 0)
           [0; 1; 2] [0; 1; 0] [1; 0; 2] (Concrete.initial 4 true [])
           (advantages := T1 [9; 0; -6]));
    [reflexivity | simpl; lia | simpl; lia].
Defined.

Lemma train_rejects_action_out_of_range_witness :
  train (MTL := Concrete.two_heads false) None
    (Concrete.config 1 1) [0; 1; 2] [0; 2; 0] [1; 0; 2]
    (Concrete.initial 4 true [])
  = (Raise RuntimeError,
     log_event (EForward ACTOR (core_model (Concrete.initial 4 true []))
                  (grad_enabled (Concrete.initial 4 true [])) [0; 1; 2])
       (log_event (EForward CRITIC (core_model (Concrete.initial 4 true []))
                     (grad_enabled (Concrete.initial 4 true [])) [0; 1; 2])
          (Concrete.initial 4 true []))).
Proof.
  apply (train_rejects_action_out_of_range (MTL := Concrete.two_heads false)
           None (Concrete.config 1 1)
           [0; 1; 2] [0; 2; 0] [1; 0; 2] (Concrete.initial 4 true [])
           (advantages := T1 [9; 0; -6]) (t := 1));
    [reflexivity | reflexivity | reflexivity | simpl; lia | simpl; lia].
Defined.

Lemma choose_action_returns_only_valid_witness :
  exists xs : list Z,
    action_dist (MTL := Concrete.two_heads false)
      (Concrete.initial 3 true [0]) 4 = A1 xs
    /\ Z.of_nat (length xs) = num_actions (Concrete.config 1 1)
    /\ has_negative xs = false
    /\ sum_off 0 xs = false
    /\ 0 <= 1 <= num_actions (Concrete.config 1 1)
    /\ (fltb (fst (random_sample (RandomState := Concrete.tape)
                     (np_random (Concrete.initial 3 true [0]))))
             (last (map (fun c => (c / last (cumsum xs) fzero)%F) (cumsum xs))
                   fzero) = true ->
        1 < num_actions (Concrete.config 1 1)).
Proof.
  apply (choose_action_returns_only_valid (RS := Concrete.tape)
           (MTL := Concrete.two_heads false) 0 (Concrete.config 1 1)
           4 None (Concrete.initial 3 true [0])).
  reflexivity.
Defined.

Lemma choose_action_single_action_raises_witness :
  (fst (choose_action (RS := Concrete.tape)
          (MTL := Concrete.heads (fun _ _ => [1]) false) 0
          {| num_actions := 1; reward_decay := 1; actor_train_iters := 1;
             critic_train_iters := 1; k := -1; lam := 1 |}
          4 None (Concrete.initial 3 true [0]))
   = Raise TypeError
   \/ fst (choose_action (RS := Concrete.tape)
             (MTL := Concrete.heads (fun _ _ => [1]) false) 0
             {| num_actions := 1; reward_decay := 1; actor_train_iters := 1;
                critic_train_iters := 1; k := -1; lam := 1 |}
             4 None (Concrete.initial 3 true [0]))
      = Raise ValueError)
  /\ core_model
       (snd (choose_action (RS := Concrete.tape)
               (MTL := Concrete.heads (fun _ _ => [1]) false) 0
               {| num_actions := 1; reward_decay := 1; actor_train_iters := 1;
                  critic_train_iters := 1; k := -1; lam := 1 |}
               4 None (Concrete.initial 3 true [0])))
     = eval (core_model (Concrete.initial 3 true [0])).
Proof.
  apply (choose_action_single_action_raises (RS := Concrete.tape)
           (MTL := Concrete.heads (fun _ _ => [1]) false) 0
           {| num_actions := 1; reward_decay := 1; actor_train_iters := 1;
              critic_train_iters := 1; k := -1; lam := 1 |}
           4 None (Concrete.initial 3 true [0]) (x := 1)).
  reflexivity.
Defined.

(** ** The data-centre pipeline *)

Section DataCenterStrings.
Import Ascii String DataCenter.

Lemma split_nonempty (sep : ascii) (s : string) : split sep s <> [].
Proof.
  destruct s as [|c s]; simpl; [discriminate|].
  destruct (Ascii.eqb c sep); [discriminate|].
  destruct (split sep s); discriminate.
Qed.

Lemma first_field_cons (sep c : ascii) (s : string) :
  first_field sep (String c s)
  = if Ascii.eqb c sep then EmptyString else String c (first_field sep s).
Proof.
  unfold first_field. simpl. destruct (Ascii.eqb c sep); [reflexivity|].
  pose proof (split_nonempty sep s) as H.
  destruct (split sep s); [congruence | reflexivity].
Qed.

Lemma first_field_append_dot (t rest : string) :
  first_field "." (t ++ String "." rest) = first_field "." t.
Proof.
  induction t as [|c t IH]; [reflexivity|].
  change (String c t ++ String "." rest)%string
    with (String c (t ++ String "." rest)).
  rewrite !first_field_cons, IH. reflexivity.
Qed.

Lemma substring_append (t s : string) :
  substring 0 (String.length t) (t ++ s) = t.
Proof.
  induction t as [|c t IH]; simpl.
  - destruct s; reflexivity.
  - now rewrite IH.
Qed.

Lemma length_append3 (t : string) (a b c : ascii) :
  (String.length (t ++ String a (String b (String c EmptyString))) - 3)%nat
  = String.length t.
Proof.
  induction t as [|x t IH]; [reflexivity|].
  change (String.length (String x t ++ String a (String b (String c "")))%string)
    with (S (String.length (t ++ String a (String b (String c ""))))).
  assert (3 <= String.length (t ++ String a (String b (String c ""))))%nat.
  { clear IH. induction t as [|y t IHt]; simpl; [lia|]. simpl in IHt. lia. }
  simpl String.length at 2. lia.
Qed.

(** X8.  For an archive name that ends in [.gz], the cleaned name [clean]
    records is the name without [.gz], and the raw file [clean] unzips to
    is the raw file [_preprocess] later derives from the cleaned name. *)
Theorem raw_file_names_agree (t : string) :
  clean_file_name_of (t ++ ".gz") = t
  /\ raw_file_name_of (clean_file_name_of (t ++ ".gz"))
     = raw_file_name_of (t ++ ".gz").
Proof.
  assert (E : clean_file_name_of (t ++ ".gz") = t).
  { unfold clean_file_name_of, drop_last3.
    rewrite length_append3. apply substring_append. }
  split; [exact E|].
  rewrite E. unfold raw_file_name_of.
  now rewrite first_field_append_dot.
Qed.

(** Without the [.gz] ending the two names differ. *)
Example raw_file_names_differ :
  raw_file_name_of "vm_cpu_readings-1" = "vm_cpu_readings-1_raw.csv"%string
  /\ raw_file_name_of (clean_file_name_of "vm_cpu_readings-1")
     = "vm_cpu_reading_raw.csv"%string.
Proof. split; reflexivity. Qed.

Lemma prefix_cons (a b : ascii) (s1 s2 : string) :
  prefix (String a s1) (String b s2)
  = if ascii_dec a b then prefix s1 s2 else false.
Proof. reflexivity. Qed.

Lemma prefix_of_empty (a : ascii) (s1 : string) :
  prefix (String a s1) EmptyString = false.
Proof. reflexivity. Qed.

Lemma vmtable_is_not_cpu_readings (s : string) :
  prefix "vmtable" s = true -> prefix "vm_cpu_readings" s = false.
Proof.
  destruct s as [|a [|b [|c s]]];
    rewrite ?prefix_cons, ?prefix_of_empty;
    repeat match goal with
           | |- context [ascii_dec ?x ?y] =>
               destruct (ascii_dec x y) as [<-|];
               rewrite ?prefix_cons, ?prefix_of_empty
           end;
    try discriminate; try reflexivity.
Qed.

End DataCenterStrings.

Section DataCenterScan.
Import Ascii String DataCenter.
Variable os_path_join : string -> string -> string.
Variable Download : Type.

Lemma scan_urls_recorded (is_force : bool)
    (path_exists_at : nat -> string -> bool) (urls : list string) :
  forall (i : nat) (st : scan_state Download),
    0 <= num_files st ->
    _cpu_readings_file_name_list (pipeline (scan_urls os_path_join is_force path_exists_at i urls st))
    = _cpu_readings_file_name_list (pipeline st)
      ++ firstn (Z.to_nat (num_files st))
           (map (last_field "/") (filter is_cpu_readings urls)).
Proof.
  induction urls as [|u urls IH]; intros i st Hn.
  - simpl. now rewrite firstn_nil, app_nil_r.
  - assert (Hc : is_cpu_readings u
                 = prefix "vm_cpu_readings" (last_field "/" u)) by reflexivity.
    cbn [DataCenter.scan_urls filter]. rewrite Hc. unfold DataCenter.scan_url.
    destruct (prefix "vmtable" (last_field "/" u)) eqn:Ev.
    + rewrite (vmtable_is_not_cpu_readings _ Ev).
      destruct (negb is_force && path_exists_at i (_vm_table_file (pipeline st)));
        now rewrite IH.
    + destruct (prefix "vm_cpu_readings" (last_field "/" u)) eqn:Ec; cbn [andb].
      * destruct (0 <? num_files st) eqn:En.
        -- apply Z.ltb_lt in En.
           destruct (negb is_force && path_exists_at i _);
             rewrite IH by (simpl; lia); cbn [pipeline num_files map
               record_cpu_readings_file _cpu_readings_file_name_list];
             rewrite <- app_assoc;
             replace (Z.to_nat (num_files st))
               with (S (Z.to_nat (num_files st - 1))) by lia;
             reflexivity.
        -- apply Z.ltb_ge in En.
           rewrite IH by assumption.
           now replace (Z.to_nat (num_files st)) with 0%nat by lia.
      * now rewrite IH.
Qed.

Lemma scan_urls_num_files (is_force : bool)
    (path_exists_at : nat -> string -> bool) (urls : list string) :
  forall (i : nat) (st : scan_state Download),
    0 <= num_files st <= 2 ->
    0 <= num_files (scan_urls os_path_join is_force path_exists_at i urls st) <= 2.
Proof.
  induction urls as [|u urls IH]; intros i st H; [exact H|].
  cbn [DataCenter.scan_urls]. apply IH.
  unfold DataCenter.scan_url.
  destruct (prefix "vmtable" _).
  - now destruct (negb is_force && _).
  - destruct (prefix "vm_cpu_readings" _ && (0 <? num_files st)) eqn:E;
      [|exact H].
    apply andb_true_iff in E as [_ E]. apply Z.ltb_lt in E.
    destruct (negb is_force && _); simpl; lia.
Qed.

(** X9.  The loop of [_aria2p_download] records, after the names it already
    holds, the file names of the first two lines whose last path
    component starts with [vm_cpu_readings], in the order of the file and
    whether or not they are downloaded; later lines of that kind are
    ignored, and the counter never leaves the range 0 to 2. *)
Theorem aria2p_download_records_two_files (is_force : bool)
    (path_exists_at : nat -> string -> bool) (urls : list string)
    (self : DataCenterPipeline) (log : list (effect Download)) :
  let st := scan_urls os_path_join is_force path_exists_at 0 urls
              {| num_files := 2; pipeline := self; effects := log |} in
  _cpu_readings_file_name_list (pipeline st)
  = _cpu_readings_file_name_list self
    ++ firstn 2 (map (last_field "/") (filter is_cpu_readings urls))
  /\ 0 <= num_files st <= 2.
Proof.
  intros st. split.
  - unfold st. now rewrite scan_urls_recorded.
  - apply scan_urls_num_files. simpl. lia.
Qed.

End DataCenterScan.

Section DataCenterSubmissions.
Import Ascii String DataCenter.
Variable os_path_join : string -> string -> string.
Variable Download : Type.

(** One line of the URL file: what it adds to the effects. *)
Lemma scan_url_effects (is_force : bool) (path_exists : string -> bool)
    (u : string) (st : scan_state Download) :
  exists new,
    effects (scan_url os_path_join is_force path_exists u st)
    = effects st ++ new
    /\ _download_folder (pipeline (scan_url os_path_join is_force path_exists u st))
       = _download_folder (pipeline st)
    /\ (forall e, In e new ->
          (exists msg, e = InfoGreen msg)
          \/ (e = AddUris [u] (_download_folder (pipeline st))
              /\ (is_vmtable u = true \/ is_cpu_readings u = true)))
    /\ (List.length (submitted new)
        + Z.to_nat (num_files (scan_url os_path_join is_force path_exists u st))
        <= (if is_vmtable u then 1 else 0) + Z.to_nat (num_files st))%nat
    /\ (is_force = false -> (forall p, path_exists p = true) ->
        submitted new = [])
    /\ (is_force = true ->
        List.length (submitted new)
        = ((if is_vmtable u then 1 else 0)
           + (if is_cpu_readings u && (0 <? num_files st)%Z then 1 else 0))%nat)
    /\ num_files (scan_url os_path_join is_force path_exists u st)
       = num_files st
         - (if is_cpu_readings u && (0 <? num_files st) then 1 else 0).
Proof.
  unfold scan_url, is_vmtable, is_cpu_readings.
  destruct (prefix "vmtable" (last_field "/" u)) eqn:Ev;
    [rewrite (vmtable_is_not_cpu_readings _ Ev)
    |destruct (prefix "vm_cpu_readings" (last_field "/" u)) eqn:Ec];
    cbn [andb];
    try (destruct (0 <? num_files st) eqn:En;
         [apply Z.ltb_lt in En | apply Z.ltb_ge in En]);
    destruct is_force; cbn [negb andb];
    try destruct (path_exists _) eqn:Ex;
    (eexists; split; [first [reflexivity | symmetry; apply app_nil_r]|]);
    (split; [reflexivity|]);
    (split; [intros e He; simpl in He;
             repeat (destruct He as [<-|He]); try contradiction;
             first [left; eexists; reflexivity | right; auto]|]);
    (split; [simpl; lia|]);
    (split; [intros Hf Hall; try discriminate Hf; try reflexivity;
             rewrite Hall in Ex; discriminate Ex|]);
    (split; [intros Hf; try discriminate Hf; try reflexivity; simpl; lia
            |simpl; lia]).
Qed.

Lemma submitted_app (es1 es2 : list (effect Download)) :
  submitted (es1 ++ es2) = (submitted es1 ++ submitted es2)%list.
Proof. apply flat_map_app. Qed.

Lemma scan_urls_effects (is_force : bool)
    (path_exists_at : nat -> string -> bool) (urls : list string) :
  forall (i : nat) (st : scan_state Download),
  exists new,
    effects (scan_urls os_path_join is_force path_exists_at i urls st)
    = effects st ++ new
    /\ (forall e, In e new ->
          (exists msg, e = InfoGreen msg)
          \/ (exists u, In u urls
                        /\ e = AddUris [u] (_download_folder (pipeline st))
                        /\ (is_vmtable u = true \/ is_cpu_readings u = true)))
    /\ (List.length (submitted new)
        <= List.length (filter is_vmtable urls) + Z.to_nat (num_files st))%nat
    /\ (is_force = false -> (forall j p, path_exists_at j p = true) ->
        submitted new = [])
    /\ (is_force = true -> 0 <= num_files st ->
        List.length (submitted new)
        = (List.length (filter is_vmtable urls)
           + List.length (firstn (Z.to_nat (num_files st))
                            (filter is_cpu_readings urls)))%nat).
Proof.
  induction urls as [|u urls IH]; intros i st.
  - exists []. simpl. rewrite app_nil_r, firstn_nil.
    repeat split; try reflexivity; try lia.
  - cbn [DataCenter.scan_urls].
    destruct (scan_url_effects is_force (path_exists_at i) u st)
      as (new1 & E1 & Hfolder & Hin1 & Hle1 & Hskip1 & Hforce1 & Hnum).
    destruct (IH (S i) (scan_url os_path_join is_force (path_exists_at i) u st))
      as (new2 & E2 & Hin2 & Hle2 & Hskip2 & Hforce2).
    exists (new1 ++ new2)%list.
    split; [now rewrite E2, E1, app_assoc|].
    split; [|split; [|split]].
    + intros e He. apply in_app_or in He as [He|He].
      * destruct (Hin1 e He) as [Hm|[-> Hk]]; [now left|].
        right. exists u. repeat split; [now left | exact Hk].
      * destruct (Hin2 e He) as [Hm|(u' & Hu' & -> & Hk)]; [now left|].
        right. exists u'. rewrite Hfolder. repeat split; [now right | exact Hk].
    + rewrite submitted_app, length_app. cbn [filter].
      destruct (is_vmtable u); cbn [List.length]; lia.
    + intros Hf Hall. rewrite submitted_app, Hskip1, Hskip2; auto.
    + intros Hf Hn. rewrite submitted_app, length_app, Hforce1, Hforce2, Hnum;
        try assumption.
      * cbn [filter].
        destruct (is_cpu_readings u); cbn [andb].
        -- destruct (0 <? num_files st) eqn:En.
           ++ apply Z.ltb_lt in En.
              replace (Z.to_nat (num_files st))
                with (S (Z.to_nat (num_files st - 1))) by lia.
              destruct (is_vmtable u); cbn [firstn List.length]; lia.
           ++ apply Z.ltb_ge in En.
              replace (num_files st) with 0 by lia.
              change (Z.to_nat (0 - 0)) with 0%nat.
              cbn [Z.to_nat firstn List.length].
              destruct (is_vmtable u); cbn [List.length]; lia.
        -- rewrite Z.sub_0_r.
           destruct (is_vmtable u); cbn [List.length]; lia.
      * rewrite Hnum. destruct (is_cpu_readings u && (0 <? num_files st)) eqn:E;
          [|lia].
        apply andb_true_iff in E as [_ E]. apply Z.ltb_lt in E. lia.
Qed.

(** X10.  The loop of [_aria2p_download] hands the download client only lines
    of the URL file whose file name starts with [vmtable] or
    [vm_cpu_readings], one URL per request and always into the download
    folder, and never more than the [vmtable] lines and two more. *)
Theorem aria2p_download_submits_only_listed (is_force : bool)
    (path_exists_at : nat -> string -> bool) (urls : list string)
    (self : DataCenterPipeline) (log : list (effect Download)) :
  exists new,
    effects (scan_urls os_path_join is_force path_exists_at 0 urls
               {| num_files := 2; pipeline := self; effects := log |})
    = log ++ new
    /\ (forall e, In e new ->
          (exists msg, e = InfoGreen msg)
          \/ (exists u, In u urls
                        /\ e = AddUris [u] (_download_folder self)
                        /\ (is_vmtable u = true \/ is_cpu_readings u = true)))
    /\ (List.length (submitted new)
        <= List.length (filter is_vmtable urls) + 2)%nat.
Proof.
  destruct (scan_urls_effects is_force path_exists_at urls 0
              {| num_files := 2; pipeline := self; effects := log |})
    as (new & E & Hin & Hle & _).
  exists new. repeat split; [exact E | exact Hin | exact Hle].
Qed.

(** X11.  Without [is_force], when every target file is already there, the loop
    of [_aria2p_download] submits no download at all. *)
Theorem aria2p_download_skips_existing
    (path_exists_at : nat -> string -> bool) (urls : list string)
    (self : DataCenterPipeline) (log : list (effect Download)) :
  (forall i p, path_exists_at i p = true) ->
  submitted (effects (scan_urls os_path_join false path_exists_at 0 urls
                        {| num_files := 2; pipeline := self; effects := log |}))
  = submitted log.
Proof.
  intros Hall.
  destruct (scan_urls_effects false path_exists_at urls 0
              {| num_files := 2; pipeline := self; effects := log |})
    as (new & E & _ & _ & Hskip & _).
  rewrite E, submitted_app, Hskip by auto. apply app_nil_r.
Qed.

(** With [is_force], the URLs one line hands to the download client. *)
Lemma scan_url_forced (path_exists : string -> bool) (u : string)
    (st : scan_state Download) :
  exists new,
    effects (scan_url os_path_join true path_exists u st) = effects st ++ new
    /\ submitted new
       = if is_vmtable u then [u]
         else if is_cpu_readings u && (0 <? num_files st) then [u] else [].
Proof.
  unfold scan_url, is_vmtable, is_cpu_readings.
  destruct (prefix "vmtable" (last_field "/" u)); cbn [negb andb].
  - eexists. split; reflexivity.
  - destruct (prefix "vm_cpu_readings" _ && (0 <? num_files st)).
    + eexists. split; reflexivity.
    + exists []. split; [symmetry; apply app_nil_r | reflexivity].
Qed.

Lemma scan_urls_forced (path_exists_at : nat -> string -> bool)
    (urls : list string) :
  forall (i : nat) (st : scan_state Download),
    0 <= num_files st ->
    exists new,
      effects (scan_urls os_path_join true path_exists_at i urls st)
      = effects st ++ new
      /\ submitted new = lines_to_fetch (Z.to_nat (num_files st)) urls.
Proof.
  induction urls as [|u urls IH]; intros i st Hn.
  - exists []. split; [symmetry; apply app_nil_r | reflexivity].
  - cbn [DataCenter.scan_urls].
    destruct (scan_url_forced (path_exists_at i) u st) as (new1 & E1 & S1).
    destruct (scan_url_effects true (path_exists_at i) u st)
      as (_ & _ & _ & _ & _ & _ & _ & Hnum).
    assert (Hn' : 0 <= num_files (scan_url os_path_join true (path_exists_at i)
                                    u st)).
    { rewrite Hnum.
      destruct (is_cpu_readings u && (0 <? num_files st)) eqn:E; [|lia].
      apply andb_true_iff in E as [_ E]. apply Z.ltb_lt in E. lia. }
    destruct (IH (S i) _ Hn') as (new2 & E2 & S2).
    exists (new1 ++ new2)%list. split; [now rewrite E2, E1, app_assoc|].
    rewrite submitted_app, S1, S2, Hnum. cbn [lines_to_fetch].
    destruct (is_vmtable u) eqn:Ev.
    + assert (Ec : is_cpu_readings u = false)
        by (apply vmtable_is_not_cpu_readings; exact Ev).
      rewrite Ec. cbn [andb]. now rewrite Z.sub_0_r.
    + destruct (is_cpu_readings u); cbn [andb]; [|now rewrite Z.sub_0_r].
      destruct (0 <? num_files st) eqn:En.
      * apply Z.ltb_lt in En.
        replace (Z.to_nat (num_files st))
          with (S (Z.to_nat (num_files st - 1))) by lia.
        reflexivity.
      * apply Z.ltb_ge in En.
        replace (num_files st) with 0 by lia. reflexivity.
Qed.

(** The lines to fetch, kind by kind: all the [vmtable] lines, and the
    first [n] of the [vm_cpu_readings] lines. *)
Lemma lines_to_fetch_vmtable (urls : list string) :
  forall n, filter is_vmtable (lines_to_fetch n urls) = filter is_vmtable urls.
Proof.
  induction urls as [|u urls IH]; intros n; [reflexivity|].
  cbn [lines_to_fetch filter].
  destruct (is_vmtable u) eqn:Ev.
  - cbn [filter]. now rewrite Ev, IH.
  - destruct (is_cpu_readings u); [|apply IH].
    destruct n as [|n]; [apply IH|].
    cbn [filter]. now rewrite Ev, IH.
Qed.

Lemma lines_to_fetch_cpu_readings (urls : list string) :
  forall n,
    filter is_cpu_readings (lines_to_fetch n urls)
    = firstn n (filter is_cpu_readings urls).
Proof.
  induction urls as [|u urls IH]; intros n.
  - now rewrite firstn_nil.
  - cbn [lines_to_fetch filter].
    destruct (is_vmtable u) eqn:Ev.
    + assert (Ec : is_cpu_readings u = false)
        by (apply vmtable_is_not_cpu_readings; exact Ev).
      cbn [filter]. now rewrite Ec, IH.
    + destruct (is_cpu_readings u) eqn:Ec; [|apply IH].
      destruct n as [|n]; [now rewrite IH|].
      cbn [filter firstn]. now rewrite Ec, IH.
Qed.

(** X12.  With [is_force] the loop of [_aria2p_download] submits, whatever
    files are already there, exactly the lines to fetch in the order of
    the file: every [vmtable] line and the first two [vm_cpu_readings]
    lines, each as a request of its own for that one URL into the
    download folder, and nothing else. *)
Theorem aria2p_download_forced
    (path_exists_at : nat -> string -> bool) (urls : list string)
    (self : DataCenterPipeline) (log : list (effect Download)) :
  exists new,
    effects (scan_urls os_path_join true path_exists_at 0 urls
               {| num_files := 2; pipeline := self; effects := log |})
    = log ++ new
    /\ submitted new = lines_to_fetch 2 urls
    /\ (forall e, In e new ->
          (exists msg, e = InfoGreen msg)
          \/ (exists u, In u urls
                        /\ e = AddUris [u] (_download_folder self)))
    /\ filter is_vmtable (submitted new) = filter is_vmtable urls
    /\ filter is_cpu_readings (submitted new)
       = firstn 2 (filter is_cpu_readings urls)
    /\ List.length (submitted new)
       = (List.length (filter is_vmtable urls)
          + List.length (firstn 2 (filter is_cpu_readings urls)))%nat.
Proof.
  destruct (scan_urls_forced path_exists_at urls 0
              {| num_files := 2; pipeline := self; effects := log |})
    as (new & E & Hsub); [simpl; lia|].
  destruct (scan_urls_effects true path_exists_at urls 0
              {| num_files := 2; pipeline := self; effects := log |})
    as (new' & E' & Hin & _ & _ & Hforce).
  cbn [effects] in E, E'.
  assert (new' = new) as -> by (apply (app_inv_head log); congruence).
  exists new. split; [exact E|]. split; [exact Hsub|]. split.
  - intros e He. destruct (Hin e He) as [Hm|(u & Hu & -> & _)]; [now left|].
    right. now exists u.
  - rewrite Hsub. split; [apply lines_to_fetch_vmtable|].
    split; [apply lines_to_fetch_cpu_readings|].
    rewrite <- Hsub. apply Hforce; [reflexivity | simpl; lia].
Qed.

End DataCenterSubmissions.

Section DataCenterPolling.
Import Ascii String DataCenter.
Variable Download : Type.
Variable download_name download_status download_progress_2f : Download -> string.
Variable is_complete : Download -> bool.

Lemma progress_lines_quiet (f : effect Download -> bool) (g : Download -> string)
    (downloads : list Download) :
  f (InfoGreen EmptyString) = false ->
  (forall m m', f (InfoGreen (Download := Download) m) = f (InfoGreen m')) ->
  filter f (map (fun d => InfoGreen (g d)) downloads) = [].
Proof.
  intros H0 Hmsg. induction downloads as [|d ds IH]; simpl; [reflexivity|].
  now rewrite (Hmsg (g d) EmptyString), H0.
Qed.

Lemma check_all_download_completed_run (polls : nat -> list Download) (n : nat) :
  forall (fuel i : nat) (log : list (effect Download)),
    (forall j, (j < n)%nat -> pending is_complete (polls (i + j)%nat) = true) ->
    pending is_complete (polls (i + n)%nat) = false ->
    (n < fuel)%nat ->
    exists new,
      _check_all_download_completed download_name download_status
        download_progress_2f is_complete fuel polls i log
      = Some (log ++ new)
      /\ filter (@is_sleep Download) new = repeat (Sleep 10) n
      /\ filter (@is_remove Download) new
         = if Nat.eqb (List.length (polls (i + n)%nat)) 0 then []
           else [Remove (polls (i + n)%nat)].
Proof.
  induction n as [|n IH]; intros fuel i log Hpending Hready Hfuel;
    (destruct fuel as [|fuel]; [lia|]); cbn [_check_all_download_completed].
  - rewrite Nat.add_0_r in *. unfold pending in Hready.
    destruct (Nat.eqb (List.length (polls i)) 0) eqn:El.
    + eexists. split; [reflexivity|]. split; reflexivity.
    + cbn [negb andb] in Hready. apply negb_false_iff in Hready.
      rewrite Hready. eexists. split; [reflexivity|]. split; reflexivity.
  - assert (H0 := Hpending 0%nat ltac:(lia)). rewrite Nat.add_0_r in H0.
    unfold pending in H0. apply andb_true_iff in H0 as [Hl Hc].
    apply negb_true_iff in Hl, Hc. rewrite Hl, Hc.
    destruct (IH fuel (S i)
                (log
                 ++ map (fun d => InfoGreen (download_name d ++ ", "
                                             ++ download_status d ++ ", "
                                             ++ download_progress_2f d ++ "%"))
                        (polls i)
                 ++ [InfoGreen (repeat_string "-" 60); Sleep 10])%list)
      as (new & E & Hs & Hr).
    + intros j Hj. replace (S i + j)%nat with (i + S j)%nat by lia.
      apply Hpending. lia.
    + now replace (S i + n)%nat with (i + S n)%nat by lia.
    + lia.
    + replace (S i + n)%nat with (i + S n)%nat in Hr by lia.
      eexists. split; [rewrite E, <- !app_assoc; reflexivity|].
      rewrite !filter_app, Hs, Hr.
      rewrite !progress_lines_quiet by reflexivity.
      split; reflexivity.
Qed.

(** X13.  [_check_all_download_completed] returns at the first poll that shows
    no download or only complete ones.  Before that it sleeps ten seconds
    after every poll; it removes downloads once, all that the last poll
    showed, and only when that poll showed any. *)
Theorem check_all_download_completed_returns (polls : nat -> list Download)
    (n fuel : nat) (log : list (effect Download)) :
  (forall j, (j < n)%nat -> pending is_complete (polls j) = true) ->
  pending is_complete (polls n) = false ->
  (n < fuel)%nat ->
  exists new,
    _check_all_download_completed download_name download_status
      download_progress_2f is_complete fuel polls 0 log
    = Some (log ++ new)
    /\ filter (@is_sleep Download) new = repeat (Sleep 10) n
    /\ filter (@is_remove Download) new
       = if Nat.eqb (List.length (polls n)) 0 then [] else [Remove (polls n)].
Proof.
  intros Hpending Hready Hfuel.
  exact (@check_all_download_completed_run polls n fuel 0%nat log
           Hpending Hready Hfuel).
Qed.

(** X14.  While every poll shows a download that is not complete,
    [_check_all_download_completed] keeps polling: no number of polls is
    enough for it to return. *)
Theorem check_all_download_completed_waits (polls : nat -> list Download) :
  (forall j, pending is_complete (polls j) = true) ->
  forall (fuel i : nat) (log : list (effect Download)),
    _check_all_download_completed download_name download_status
      download_progress_2f is_complete fuel polls i log
    = None.
Proof.
  intros Hpending. induction fuel as [|fuel IH]; intros i log; [reflexivity|].
  cbn [_check_all_download_completed].
  specialize (Hpending i). unfold pending in Hpending.
  apply andb_true_iff in Hpending as [Hl Hc].
  apply negb_true_iff in Hl, Hc. rewrite Hl, Hc. apply IH.
Qed.

End DataCenterPolling.

Section DataCenterDownload.
Import Ascii String DataCenter.
Variable os_path_join : string -> string -> string.
Variable Download : Type.
Variable download_name download_status download_progress_2f : Download -> string.
Variable is_complete : Download -> bool.

Lemma scan_urls_keeps_attributes (is_force : bool)
    (path_exists_at : nat -> string -> bool) (urls : list string) :
  forall (i : nat) (st : scan_state Download),
    let self' := pipeline (scan_urls os_path_join is_force path_exists_at i urls st) in
    _download_folder self' = _download_folder (pipeline st)
    /\ _clean_folder self' = _clean_folder (pipeline st)
    /\ _vm_table_file self' = _vm_table_file (pipeline st)
    /\ _raw_vm_table_file self' = _raw_vm_table_file (pipeline st)
    /\ _clean_cpu_readings_file_name_list self'
       = _clean_cpu_readings_file_name_list (pipeline st).
Proof.
  induction urls as [|u urls IH]; intros i st; [now repeat split|].
  cbn [DataCenter.scan_urls].
  destruct (IH (S i) (scan_url os_path_join is_force (path_exists_at i) u st))
    as (H1 & H2 & H3 & H4 & H5).
  cbv zeta. rewrite H1, H2, H3, H4, H5.
  unfold scan_url.
  destruct (prefix "vmtable" _); [now destruct (negb is_force && _)|].
  destruct (prefix "vm_cpu_readings" _ && _); [|now repeat split].
  now destruct (negb is_force && _).
Qed.

Lemma scan_effects_do_not_sleep (urls : list string) (self : DataCenterPipeline)
    (new : list (effect Download)) :
  (forall e, In e new ->
     (exists msg, e = InfoGreen msg)
     \/ (exists u, In u urls
                   /\ e = AddUris [u] (_download_folder self)
                   /\ (is_vmtable u = true \/ is_cpu_readings u = true))) ->
  filter (@is_sleep Download) new = [].
Proof.
  induction new as [|e new IH]; intros H; [reflexivity|].
  simpl. rewrite IH by (intros e' He'; apply H; now right).
  destruct (H e (or_introl eq_refl)) as [[msg ->]|(u & _ & -> & _)];
    reflexivity.
Qed.

(** X15.  Once the downloads the client reports have all completed (or there are
    none), [_aria2p_download] returns.  It has then slept ten seconds for
    each poll that still showed an incomplete download, has recorded the
    first two CPU-readings file names after those it held, and has changed
    no other attribute of the pipeline. *)
Theorem aria2p_download_returns (is_force : bool) (urls : list string)
    (path_exists_at : nat -> string -> bool) (polls : nat -> list Download)
    (n fuel : nat) (self : DataCenterPipeline) (log : list (effect Download)) :
  (forall j, (j < n)%nat -> pending is_complete (polls j) = true) ->
  pending is_complete (polls n) = false ->
  (n < fuel)%nat ->
  exists self' new,
    _aria2p_download os_path_join download_name download_status
      download_progress_2f is_complete fuel is_force urls path_exists_at
      polls self log
    = Some (self', log ++ new)
    /\ filter (@is_sleep Download) new = repeat (Sleep 10) n
    /\ _cpu_readings_file_name_list self'
       = _cpu_readings_file_name_list self
         ++ firstn 2 (map (last_field "/") (filter is_cpu_readings urls))
    /\ _download_folder self' = _download_folder self
    /\ _clean_folder self' = _clean_folder self
    /\ _vm_table_file self' = _vm_table_file self
    /\ _raw_vm_table_file self' = _raw_vm_table_file self
    /\ _clean_cpu_readings_file_name_list self'
       = _clean_cpu_readings_file_name_list self.
Proof.
  intros Hpending Hready Hfuel. unfold _aria2p_download.
  set (st0 := {| num_files := 2; pipeline := self;
                 effects := (log ++ [InfoGreen
                               "Downloading vmtable and cpu readings."])%list |}).
  destruct (scan_urls_effects os_path_join is_force path_exists_at urls 0 st0)
    as (new1 & E1 & Hin1 & _).
  destruct (@check_all_download_completed_run Download download_name
              download_status download_progress_2f is_complete polls n fuel
              0%nat (effects (scan_urls os_path_join is_force path_exists_at
                                0 urls st0))
              Hpending Hready Hfuel)
    as (new2 & E2 & Hs & _).
  rewrite E2, E1.
  destruct (scan_urls_keeps_attributes is_force path_exists_at urls 0 st0)
    as (H1 & H2 & H3 & H4 & H5).
  eexists. eexists. split.
  { unfold st0 at 2. cbn [effects]. rewrite <- !app_assoc. reflexivity. }
  split.
  { cbn [app filter is_sleep]. rewrite filter_app, Hs.
    now rewrite (scan_effects_do_not_sleep urls self new1 Hin1). }
  split.
  { unfold st0. now rewrite scan_urls_recorded. }
  repeat split; assumption.
Qed.

End DataCenterDownload.

Section DataCenterConvert.
Import Ascii String DataCenter.
Variable Id : Type.
Variable loc : string -> outcome Id.

(** A row the conversion accepts: at least two fields, the second one a
    key of the id map. *)
Lemma convert_row_done (f0 key : string) (rest : list string) (v : Id) :
  loc key = Done v ->
  convert_row loc (f0 :: key :: rest)
  = Done (Text Id f0 :: NewId v :: map (Text Id) rest).
Proof. intros E. simpl. now rewrite E. Qed.

Lemma convert_append (rows1 rows2 : list (list string)) :
  forall written out,
    _convert_cpu_readings_id loc rows1 written = (Done tt, out) ->
    _convert_cpu_readings_id loc (rows1 ++ rows2) written
    = _convert_cpu_readings_id loc rows2 out.
Proof.
  induction rows1 as [|row rows1 IH]; intros written out E; simpl in *.
  - now injection E as <-.
  - destruct (convert_row loc row); [now apply IH | discriminate].
Qed.

Lemma convert_all_rows (rows : list (list string)) :
  (forall row, In row rows ->
     exists f0 key rest v, row = f0 :: key :: rest /\ loc key = Done v) ->
  forall written,
  exists out,
    _convert_cpu_readings_id loc rows written = (Done tt, written ++ out)
    /\ List.length out = List.length rows
    /\ forall i row, nth_error rows i = Some row ->
         exists f0 key rest v,
           row = f0 :: key :: rest /\ loc key = Done v
           /\ nth_error out i
              = Some (Text Id f0 :: NewId v :: map (Text Id) rest).
Proof.
  induction rows as [|row rows IH]; intros Hrows written.
  - exists []. rewrite app_nil_r. repeat split. intros [|i] row E; discriminate.
  - destruct (Hrows row (or_introl eq_refl)) as (f0 & key & rest & v & -> & Ekey).
    destruct (IH (fun r Hr => Hrows r (or_intror Hr))
                (written ++ [Text Id f0 :: NewId v :: map (Text Id) rest])%list)
      as (out & E & Hlen & Hnth).
    exists ((Text Id f0 :: NewId v :: map (Text Id) rest) :: out).
    split; [|split].
    + cbn [_convert_cpu_readings_id]. rewrite (convert_row_done _ _ Ekey), E.
      now rewrite <- app_assoc.
    + simpl. now rewrite Hlen.
    + intros [|i] row E'; simpl in E'.
      * injection E' as <-. now exists f0, key, rest, v.
      * now apply Hnth.
Qed.

(** X16.  When every row of the old file has at least two fields and its second
    field is a key of the id map, [_convert_cpu_readings_id] returns and
    the new file has one row per row of the old one, in the same order:
    the same fields, except that the second one is the new id of the
    key. *)
Theorem convert_cpu_readings_id_rows (rows : list (list string)) :
  (forall row, In row rows ->
     exists f0 key rest v, row = f0 :: key :: rest /\ loc key = Done v) ->
  exists out,
    _convert_cpu_readings_id loc rows [] = (Done tt, out)
    /\ List.length out = List.length rows
    /\ forall i row, nth_error rows i = Some row ->
         exists row',
           nth_error out i = Some row'
           /\ List.length row' = List.length row
           /\ (forall j, j <> 1%nat ->
                 nth_error row' j = option_map (Text Id) (nth_error row j))
           /\ exists key v,
                nth_error row 1 = Some key /\ loc key = Done v
                /\ nth_error row' 1 = Some (NewId v).
Proof.
  intros Hrows.
  destruct (convert_all_rows rows Hrows []) as (out & E & Hlen & Hnth).
  exists out. split; [exact E|]. split; [exact Hlen|].
  intros i row Hi.
  destruct (Hnth i row Hi) as (f0 & key & rest & v & -> & Ekey & Hout).
  eexists. split; [exact Hout|]. split; [|split].
  - simpl. now rewrite length_map.
  - intros [|[|j]] Hj; [reflexivity | congruence |]. simpl.
    apply nth_error_map.
  - now exists key, v.
Qed.

(** X17.  [_convert_cpu_readings_id] stops at the first row it cannot convert:
    a row with fewer than two fields (such as the empty row the CSV reader
    yields for a blank line) raises [IndexError], a second field that is
    not a key raises what the id map raises.  The new file then holds the
    converted rows before that one and nothing of the rows after it. *)
Theorem convert_cpu_readings_id_stops (good : list (list string))
    (bad : list string) (rest : list (list string)) (e : error) :
  (forall row, In row good ->
     exists f0 key fields v, row = f0 :: key :: fields /\ loc key = Done v) ->
  ((List.length bad < 2)%nat /\ e = IndexError)
  \/ (exists f0 key fields, bad = f0 :: key :: fields /\ loc key = Failed e) ->
  exists out,
    _convert_cpu_readings_id loc (good ++ bad :: rest) [] = (Failed e, out)
    /\ _convert_cpu_readings_id loc good [] = (Done tt, out)
    /\ List.length out = List.length good.
Proof.
  intros Hgood Hbad.
  destruct (convert_all_rows good Hgood []) as (out & E & Hlen & _).
  exists out. split; [|split; [exact E | exact Hlen]].
  rewrite (convert_append good (bad :: rest) [] E).
  cbn [_convert_cpu_readings_id].
  destruct Hbad as [[Hshort ->]|(f0 & key & fields & -> & Ekey)].
  - destruct bad as [|f0 [|key fields]]; simpl in *; try reflexivity; lia.
  - simpl. now rewrite Ekey.
Qed.

End DataCenterConvert.

Section DataCenterSamples.
Import Ascii String.
Example sample_recorded_files :
  DataCenter._cpu_readings_file_name_list
    (DataCenter.pipeline
       (DataCenter.scan_urls (Download := (string * bool)%type) DataCenterSample.join
          false (fun _ _ => false) 0 DataCenterSample.urls
          {| DataCenter.num_files := 2;
             DataCenter.pipeline := DataCenterSample.self;
             DataCenter.effects := [] |}))
  = ["vm_cpu_readings-file-1-of-195.csv.gz"%string;
     "vm_cpu_readings-file-2-of-195.csv.gz"%string].
Proof. reflexivity. Qed.

Lemma aria2p_download_skips_existing_witness :
  DataCenter.submitted
    (DataCenter.effects
       (DataCenter.scan_urls (Download := (string * bool)%type) DataCenterSample.join
          false (fun _ _ => true) 0 DataCenterSample.urls
          {| DataCenter.num_files := 2;
             DataCenter.pipeline := DataCenterSample.self;
             DataCenter.effects := [] |}))
  = DataCenter.submitted (Download := (string * bool)%type) [].
Proof.
  apply (aria2p_download_skips_existing DataCenterSample.join
           (fun _ _ => true) DataCenterSample.urls DataCenterSample.self
           (@nil (DataCenter.effect (string * bool)))).
  intros i p. reflexivity.
Defined.

Lemma check_all_download_completed_returns_witness :
  exists new,
    DataCenter._check_all_download_completed fst DataCenterSample.status_of
      DataCenterSample.progress_of snd 5 DataCenterSample.polls 0 []
    = Some ([] ++ new)
    /\ filter (@DataCenter.is_sleep (string * bool)) new
       = repeat (DataCenter.Sleep 10) 2
    /\ filter (@DataCenter.is_remove (string * bool)) new
       = if Nat.eqb (List.length (DataCenterSample.polls 2)) 0 then []
         else [DataCenter.Remove (DataCenterSample.polls 2)].
Proof.
  apply (check_all_download_completed_returns fst DataCenterSample.status_of
           DataCenterSample.progress_of snd DataCenterSample.polls
           (n := 2) (fuel := 5) []).
  - intros [|[|j]] Hj; [reflexivity | reflexivity | lia].
  - reflexivity.
  - lia.
Defined.

Lemma check_all_download_completed_waits_witness :
  DataCenter._check_all_download_completed fst DataCenterSample.status_of
    DataCenterSample.progress_of snd 7 DataCenterSample.stuck 0 []
  = None.
Proof.
  apply (check_all_download_completed_waits fst DataCenterSample.status_of
           DataCenterSample.progress_of snd DataCenterSample.stuck).
  intros j. reflexivity.
Defined.

Lemma sample_readings_convertible (row : list string) :
  In row DataCenterSample.readings ->
  exists f0 key rest v,
    row = f0 :: key :: rest /\ DataCenterSample.id_of key = DataCenter.Done v.
Proof.
  intros [<-|[<-|[]]]; repeat eexists.
Qed.

Lemma convert_cpu_readings_id_rows_witness :
  exists out,
    DataCenter._convert_cpu_readings_id DataCenterSample.id_of
      DataCenterSample.readings []
    = (DataCenter.Done tt, out)
    /\ List.length out = List.length DataCenterSample.readings
    /\ forall i row, nth_error DataCenterSample.readings i = Some row ->
         exists row',
           nth_error out i = Some row'
           /\ List.length row' = List.length row
           /\ (forall j, j <> 1%nat ->
                 nth_error row' j
                 = option_map (DataCenter.Text Z) (nth_error row j))
           /\ exists key v,
                nth_error row 1 = Some key
                /\ DataCenterSample.id_of key = DataCenter.Done v
                /\ nth_error row' 1 = Some (DataCenter.NewId v).
Proof.
  apply (convert_cpu_readings_id_rows DataCenterSample.id_of
           DataCenterSample.readings).
  exact sample_readings_convertible.
Defined.

Lemma convert_cpu_readings_id_stops_witness :
  exists out,
    DataCenter._convert_cpu_readings_id DataCenterSample.id_of
      (DataCenterSample.readings ++ [] :: DataCenterSample.readings) []
    = (DataCenter.Failed DataCenter.IndexError, out)
    /\ DataCenter._convert_cpu_readings_id DataCenterSample.id_of
         DataCenterSample.readings []
       = (DataCenter.Done tt, out)
    /\ List.length out = List.length DataCenterSample.readings.
Proof.
  apply (@convert_cpu_readings_id_stops Z DataCenterSample.id_of
           DataCenterSample.readings [] DataCenterSample.readings
           DataCenter.IndexError).
  - exact sample_readings_convertible.
  - left. split; [simpl; lia | reflexivity].
Defined.

Lemma aria2p_download_returns_witness :
  exists self' new,
    DataCenter._aria2p_download DataCenterSample.join fst
      DataCenterSample.status_of DataCenterSample.progress_of snd 5 true
      DataCenterSample.urls (fun _ _ => false) DataCenterSample.polls
      DataCenterSample.self []
    = Some (self', [] ++ new)
    /\ filter (@DataCenter.is_sleep (string * bool)) new
       = repeat (DataCenter.Sleep 10) 2
    /\ DataCenter._cpu_readings_file_name_list self'
       = DataCenter._cpu_readings_file_name_list DataCenterSample.self
         ++ firstn 2 (map (DataCenter.last_field "/")
                          (filter DataCenter.is_cpu_readings
                                  DataCenterSample.urls))
    /\ DataCenter._download_folder self'
       = DataCenter._download_folder DataCenterSample.self
    /\ DataCenter._clean_folder self'
       = DataCenter._clean_folder DataCenterSample.self
    /\ DataCenter._vm_table_file self'
       = DataCenter._vm_table_file DataCenterSample.self
    /\ DataCenter._raw_vm_table_file self'
       = DataCenter._raw_vm_table_file DataCenterSample.self
    /\ DataCenter._clean_cpu_readings_file_name_list self'
       = DataCenter._clean_cpu_readings_file_name_list DataCenterSample.self.
Proof.
  apply (@aria2p_download_returns DataCenterSample.join (string * bool)%type
           fst DataCenterSample.status_of DataCenterSample.progress_of snd
           true DataCenterSample.urls (fun _ _ => false)
           DataCenterSample.polls 2 5 DataCenterSample.self []).
  - intros [|[|j]] Hj; [reflexivity | reflexivity | lia].
  - reflexivity.
  - lia.
Defined.

End DataCenterSamples.
